(** * JWTdecode: a shallow embedding of [utils/JWTdecode.py]

    The script reads a JSON Web Token from standard input, decodes its header
    and payload segments (base64url, UTF-8, JSON) and prints them together
    with the raw signature segment.

    The three functions of the script ([pad_base64], [decode_jwt_part],
    [main]) are embedded in [Module JWTdecode].  The parts of the Python
    library they call are embedded before them, following CPython 3.11:
    [str.strip], [str.split], [base64.urlsafe_b64decode]
    ([binascii.a2b_base64]), [bytes.decode('utf-8')], [json.loads] (the
    accelerated scanner of [_json]) and [json.dumps(..., indent=2)].

    Conventions.
    - A Python [str] is a list of code points ([pystr]); a [bytes] object is
      a list of numbers below 256 ([pybytes]); a Python [int] is a [Z].
    - Exceptions are values of [exn]; code that may raise returns [exn + A].
    - Python floats are kept as the literal they were read from; the text the
      JSON encoder writes for a float is a parameter ([floatstr]) of the
      encoder and of [main].
    - The scanner of [json.loads] recurses on fuel; [json_loads] gives it
      fuel that is proved never to run out.  The recursion limit of the
      interpreter is part of the scanner: it enters at most
      [recursion_budget] nested arrays and objects and raises
      [RecursionError] on the next one.
    - The standard streams carry text: [main] takes the text
      [sys.stdin.read()] returns and yields the text written to standard
      output and standard error; their byte encodings, and the resource
      limits of the interpreter (recursion depth, memory), are not part of
      the model. *)

From Stdlib Require Import String Ascii DecimalString Bool ZArith NArith Lia List.
Import ListNotations.

Set Warnings "-register-all".
Open Scope N_scope.

(** ** Python strings *)

Module PyStr.

Definition pystr := list N.
Definition pybytes := list N.

(** An ASCII literal as a Python string. *)
Definition str (s : string) : pystr :=
  map N_of_ascii (list_ascii_of_string s).

Definition chr (a : ascii) : N := N_of_ascii a.

(** The double quote and the backslash. *)
Definition dquote : N := 34.
Definition backslash : N := 92.

(** [len(s)] *)
Definition len {A} (s : list A) : Z := Z.of_nat (List.length s).

(** [s * n] for a string [s] and an int [n]: empty when [n <= 0]. *)
Definition str_mul (s : pystr) (n : Z) : pystr :=
  concat (repeat s (Z.to_nat n)).

(** [int.__repr__] on a natural number, and on any int. *)
Definition repr_N (n : N) : pystr :=
  str (NilEmpty.string_of_uint (N.to_uint n)).

Definition repr_int (z : Z) : pystr :=
  match z with
  | Zneg p => chr "-" :: repr_N (Npos p)
  | _ => repr_N (Z.to_N z)
  end.

(** Lower-case hexadecimal, as the formats [%02x] and [{:04x}] give it. *)
Definition hex_digit (d : N) : N :=
  if d <? 10 then chr "0" + d else chr "a" + (d - 10).

Fixpoint hex_fixed (width : nat) (n : N) : pystr :=
  match width with
  | O => []
  | S w => hex_fixed w (N.shiftr n 4) ++ [hex_digit (N.land n 15)]
  end.

(** Number of hexadecimal digits of [n] (at least one). *)
Definition hex_width (n : N) : nat :=
  N.to_nat ((N.size n + 3) / 4).

(** [%02x]: at least two digits, more when the number needs them. *)
Definition hex_02x (n : N) : pystr := hex_fixed (Nat.max 2 (hex_width n)) n.

(** [{:04x}] for a number below [0x10000]. *)
Definition hex_04x (n : N) : pystr := hex_fixed (Nat.max 4 (hex_width n)) n.

(** [str.isspace] on one code point ([Py_UNICODE_ISSPACE]). *)
Definition isspace (c : N) : bool :=
  ((9 <=? c) && (c <=? 13)) || ((28 <=? c) && (c <=? 32))
  || (c =? 133) || (c =? 160) || (c =? 5760)
  || ((8192 <=? c) && (c <=? 8202))
  || (c =? 8232) || (c =? 8233) || (c =? 8239) || (c =? 8287) || (c =? 12288).

(** [s.lstrip()], [s.rstrip()] and [s.strip()] with no argument. *)
Fixpoint lstrip (s : pystr) : pystr :=
  match s with
  | c :: s' => if isspace c then lstrip s' else s
  | [] => []
  end.

Definition rstrip (s : pystr) : pystr := rev (lstrip (rev s)).

Definition strip (s : pystr) : pystr := rstrip (lstrip s).

(** [s.split(sep)] for a one-character separator: the pieces between the
    occurrences of [sep], in order; always at least one piece. *)
Fixpoint split_on (sep : N) (s : pystr) (cur : pystr) : list pystr :=
  match s with
  | [] => [rev cur]
  | c :: s' =>
      if c =? sep then rev cur :: split_on sep s' []
      else split_on sep s' (c :: cur)
  end.

Definition split (s : pystr) (sep : N) : list pystr := split_on sep s [].

(** [s[i]] for an index inside the string, [None] outside. *)
Definition char_at (s : pystr) (i : nat) : option N := nth_error s i.

(** [s[i:j]] for [0 <= i <= j]. *)
Definition slice (s : pystr) (i j : nat) : pystr := firstn (j - i) (skipn i s).

Definition str_eqb (a b : pystr) : bool :=
  if list_eq_dec N.eq_dec a b then true else false.

End PyStr.
Export PyStr.

(** ** Exceptions *)

Module PyExn.

(** The exceptions the library calls of the script can raise, with the
    attributes their messages are built from. *)
Inductive exn : Type :=
| BinasciiError (msg : pystr)
| ValueError (msg : pystr)
| UnicodeDecodeError (encoding : pystr) (object : pybytes)
                     (start stop : nat) (reason : pystr)
| JSONDecodeError (msg : pystr) (doc : pystr) (pos : nat)
| RecursionError (msg : pystr).

Definition repr_nat (n : nat) : pystr := repr_N (N.of_nat n).

(** [doc.count('\n', 0, pos)] *)
Definition count_newlines (doc : pystr) (pos : nat) : nat :=
  List.length (filter (fun c => c =? 10) (firstn pos doc)).

(** [pos - doc.rfind('\n', 0, pos)]: one more than the number of characters
    between the last newline before [pos] and [pos]. *)
Fixpoint colno_from (before_rev : pystr) : nat :=
  match before_rev with
  | [] => 1
  | c :: r => if c =? 10 then 1 else S (colno_from r)
  end.

Definition colno (doc : pystr) (pos : nat) : nat :=
  colno_from (rev (firstn pos doc)).

(** [str(e)] *)
Definition exn_str (e : exn) : pystr :=
  match e with
  | BinasciiError msg => msg
  | ValueError msg => msg
  | RecursionError msg => msg
  | UnicodeDecodeError enc obj start stop reason =>
      if Nat.eqb stop (S start) then
        str "'" ++ enc ++ str "' codec can't decode byte 0x"
        ++ hex_02x (nth start obj 0) ++ str " in position "
        ++ repr_nat start ++ str ": " ++ reason
      else
        str "'" ++ enc ++ str "' codec can't decode bytes in position "
        ++ repr_nat start ++ str "-" ++ repr_nat (stop - 1)
        ++ str ": " ++ reason
  | JSONDecodeError msg doc pos =>
      msg ++ str ": line " ++ repr_nat (count_newlines doc pos + 1)
      ++ str " column " ++ repr_nat (colno doc pos)
      ++ str " (char " ++ repr_nat pos ++ str ")"
  end.

(** The error [json_loads] stands in for a scanner out of fuel with: a
    [RecursionError] whose message names no JSON array or object. *)
Definition is_out_of_fuel (e : exn) : bool :=
  match e with
  | RecursionError msg => str_eqb msg (str "maximum recursion depth exceeded")
  | _ => false
  end.

End PyExn.
Export PyExn.

(** ** base64.urlsafe_b64decode *)

Module Base64.

(** [_bytes_from_decode_data] on a [str]: [s.encode('ascii')]. *)
Definition bytes_from_decode_data (s : pystr) : exn + pybytes :=
  if forallb (fun c => c <? 128) s then inr s
  else inl (ValueError
              (str "string argument should contain only ASCII characters")).

(** [s.translate(_urlsafe_decode_translation)]: [-] becomes [+] and [_]
    becomes [/]. *)
Definition urlsafe_decode_translation (b : N) : N :=
  if b =? chr "-" then chr "+" else if b =? chr "_" then chr "/" else b.

(** [table_a2b_base64]: the 6-bit value of a character of the standard
    alphabet, [None] for any other byte. *)
Definition table_a2b_base64 (c : N) : option N :=
  if (chr "A" <=? c) && (c <=? chr "Z") then Some (c - chr "A")
  else if (chr "a" <=? c) && (c <=? chr "z") then Some (c - chr "a" + 26)
  else if (chr "0" <=? c) && (c <=? chr "9") then Some (c - chr "0" + 52)
  else if c =? chr "+" then Some 62
  else if c =? chr "/" then Some 63
  else None.

Definition BASE64_PAD : N := chr "=".

(** A store into an [unsigned char]. *)
Definition uchar (n : N) : N := N.land n 255.

(** The loop of [binascii.a2b_base64] with [strict_mode] off, from the
    state [quad_pos], [leftchar], [pads] and the bytes written so far, and
    the check that follows it. *)
Fixpoint a2b_loop (data : pybytes) (quad_pos leftchar pads : N)
         (bin_data : pybytes) : exn + pybytes :=
  match data with
  | [] =>
      if quad_pos =? 0 then inr bin_data
      else if quad_pos =? 1 then
        inl (BinasciiError
               (str "Invalid base64-encoded string: number of data characters ("
                ++ repr_int (len bin_data / 3 * 4 + 1)
                ++ str ") cannot be 1 more than a multiple of 4"))
      else inl (BinasciiError (str "Incorrect padding"))
  | this_ch :: rest =>
      if this_ch =? BASE64_PAD then
        if 2 <=? quad_pos then
          if 4 <=? quad_pos + (pads + 1) then inr bin_data
          else a2b_loop rest quad_pos leftchar (pads + 1) bin_data
        else a2b_loop rest quad_pos leftchar pads bin_data
      else
        match table_a2b_base64 this_ch with
        | None => a2b_loop rest quad_pos leftchar pads bin_data
        | Some v =>
            if quad_pos =? 0 then
              a2b_loop rest 1 v 0 bin_data
            else if quad_pos =? 1 then
              a2b_loop rest 2 (N.land v 15) 0
                (bin_data ++ [uchar (N.lor (N.shiftl leftchar 2) (N.shiftr v 4))])
            else if quad_pos =? 2 then
              a2b_loop rest 3 (N.land v 3) 0
                (bin_data ++ [uchar (N.lor (N.shiftl leftchar 4) (N.shiftr v 2))])
            else
              a2b_loop rest 0 0 0
                (bin_data ++ [uchar (N.lor (N.shiftl leftchar 6) v)])
        end
  end.

Definition a2b_base64 (data : pybytes) : exn + pybytes :=
  a2b_loop data 0 0 0 [].

(** [base64.b64decode(s)] on bytes, with the default [validate=False]. *)
Definition b64decode (s : pybytes) : exn + pybytes := a2b_base64 s.

Definition urlsafe_b64decode (s : pystr) : exn + pybytes :=
  match bytes_from_decode_data s with
  | inl e => inl e
  | inr b => b64decode (map urlsafe_decode_translation b)
  end.

End Base64.
Export Base64.

(** ** bytes.decode('utf-8') *)

Module Utf8.

Definition is_continuation_byte (b : N) : bool := (128 <=? b) && (b <? 192).

(** What [utf8_decode] stopped on. *)
Inductive utf8_stop : Type :=
| UnexpectedEnd
| InvalidStart
| InvalidContinuation (n : nat).

(** The strict decoder: the decoded text, or where and why it stopped
    ([s] is what is left to decode, [pos] its offset in the input). *)
Fixpoint utf8_decode (s : pybytes) (pos : nat) (acc : pystr)
  : (nat * utf8_stop) + pystr :=
  match s with
  | [] => inr acc
  | ch :: s1 =>
      if ch <? 128 then utf8_decode s1 (pos + 1) (acc ++ [ch])
      else if ch <? 224 then
        if ch <? 194 then inl (pos, InvalidStart)
        else
          match s1 with
          | [] => inl (pos, UnexpectedEnd)
          | ch2 :: s2 =>
              if negb (is_continuation_byte ch2)
              then inl (pos, InvalidContinuation 1)
              else utf8_decode s2 (pos + 2)
                     (acc ++ [N.shiftl ch 6 + ch2 - (N.shiftl 192 6 + 128)])
          end
      else if ch <? 240 then
        match s1 with
        | [] => inl (pos, UnexpectedEnd)
        | ch2 :: s2 =>
            if negb (is_continuation_byte ch2)
               || (if ch2 <? 160 then ch =? 224 else ch =? 237)
            then inl (pos, InvalidContinuation 1)
            else
              match s2 with
              | [] => inl (pos, UnexpectedEnd)
              | ch3 :: s3 =>
                  if negb (is_continuation_byte ch3)
                  then inl (pos, InvalidContinuation 2)
                  else utf8_decode s3 (pos + 3)
                         (acc ++ [N.shiftl ch 12 + N.shiftl ch2 6 + ch3
                                  - (N.shiftl 224 12 + N.shiftl 128 6 + 128)])
              end
        end
      else if ch <? 245 then
        match s1 with
        | [] => inl (pos, UnexpectedEnd)
        | ch2 :: s2 =>
            if negb (is_continuation_byte ch2)
               || (if ch2 <? 144 then ch =? 240 else ch =? 244)
            then inl (pos, InvalidContinuation 1)
            else
              match s2 with
              | [] => inl (pos, UnexpectedEnd)
              | ch3 :: s3 =>
                  if negb (is_continuation_byte ch3)
                  then inl (pos, InvalidContinuation 2)
                  else
                    match s3 with
                    | [] => inl (pos, UnexpectedEnd)
                    | ch4 :: s4 =>
                        if negb (is_continuation_byte ch4)
                        then inl (pos, InvalidContinuation 3)
                        else utf8_decode s4 (pos + 4)
                               (acc ++ [N.shiftl ch 18 + N.shiftl ch2 12
                                        + N.shiftl ch3 6 + ch4
                                        - (N.shiftl 240 18 + N.shiftl 128 12
                                           + N.shiftl 128 6 + 128)])
                    end
              end
        end
      else inl (pos, InvalidStart)
  end.

(** [b.decode('utf-8')], with the default error handler [strict]. *)
Definition decode_utf8 (b : pybytes) : exn + pystr :=
  match utf8_decode b 0 [] with
  | inr s => inr s
  | inl (pos, UnexpectedEnd) =>
      inl (UnicodeDecodeError (str "utf-8") b pos (List.length b)
             (str "unexpected end of data"))
  | inl (pos, InvalidStart) =>
      inl (UnicodeDecodeError (str "utf-8") b pos (pos + 1)
             (str "invalid start byte"))
  | inl (pos, InvalidContinuation n) =>
      inl (UnicodeDecodeError (str "utf-8") b pos (pos + n)
             (str "invalid continuation byte"))
  end.

End Utf8.
Export Utf8.

(** ** json.loads and json.dumps *)

Module Json.

(** The Python values [json.loads] builds.  A float is kept as the text
    [float] was called on ([PyFloat lit] is [float(lit)]); a dict is its
    items in insertion order, with no key twice. *)
Inductive pyobj : Type :=
| PyNone
| PyBool (b : bool)
| PyInt (z : Z)
| PyFloat (lit : pystr)
| PyStr (s : pystr)
| PyList (l : list pyobj)
| PyDict (d : list (pystr * pyobj)).

(** [d[key] = val] on the items of a dict: an existing key keeps its place. *)
Fixpoint dict_setitem (d : list (pystr * pyobj)) (key : pystr) (val : pyobj)
  : list (pystr * pyobj) :=
  match d with
  | [] => [(key, val)]
  | (k, v) :: d' =>
      if str_eqb k key then (k, val) :: d'
      else (k, v) :: dict_setitem d' key val
  end.

(** Result of a scanning function at [str + idx]: the value with what is
    left of the document and its index, [StopIteration(idx)], an exception,
    or no fuel left. *)
Inductive scan (A : Type) : Type :=
| Scanned (v : A) (rest : pystr) (next_idx : nat)
| StopIteration (idx : nat)
| Raise (e : exn)
| OutOfFuel.
Arguments Scanned {A}.
Arguments StopIteration {A}.
Arguments Raise {A}.
Arguments OutOfFuel {A}.

Definition IS_WHITESPACE (c : N) : bool :=
  (c =? chr " ") || (c =? 9) || (c =? 10) || (c =? 13).

(** [while (idx <= end_idx && IS_WHITESPACE(str[idx])) idx++;] *)
Fixpoint skip_whitespace (s : pystr) (idx : nat) : pystr * nat :=
  match s with
  | c :: s' => if IS_WHITESPACE c then skip_whitespace s' (idx + 1) else (s, idx)
  | [] => ([], idx)
  end.

Definition is_digit (c : N) : bool := (chr "0" <=? c) && (c <=? chr "9").

Definition hex_value (c : N) : option N :=
  if is_digit c then Some (c - chr "0")
  else if (chr "a" <=? c) && (c <=? chr "f") then Some (c - chr "a" + 10)
  else if (chr "A" <=? c) && (c <=? chr "F") then Some (c - chr "A" + 10)
  else None.

(** Four hexadecimal digits, [c <<= 4; c |= digit] for each. *)
Definition hex4 (h1 h2 h3 h4 : N) : option N :=
  match hex_value h1, hex_value h2, hex_value h3, hex_value h4 with
  | Some a, Some b, Some c, Some d =>
      Some (N.lor (N.shiftl (N.lor (N.shiftl (N.lor (N.shiftl a 4) b) 4) c) 4) d)
  | _, _, _, _ => None
  end.

Definition is_high_surrogate (c : N) : bool := (55296 <=? c) && (c <=? 56319).
Definition is_low_surrogate (c : N) : bool := (56320 <=? c) && (c <=? 57343).
Definition join_surrogates (hi lo : N) : N :=
  65536 + N.lor (N.shiftl (N.land hi 1023) 10) (N.land lo 1023).

(** The one-character escapes after a backslash. *)
Definition backslash_escape (c : N) : option N :=
  if c =? dquote then Some c
  else if c =? backslash then Some c
  else if c =? chr "/" then Some c
  else if c =? chr "b" then Some 8
  else if c =? chr "f" then Some 12
  else if c =? chr "n" then Some 10
  else if c =? chr "r" then Some 13
  else if c =? chr "t" then Some 9
  else None.

Definition errmsg (msg : string) (doc : pystr) (idx : nat) : exn :=
  JSONDecodeError (str msg) doc idx.

(** [scanstring_unicode] with [strict] on: [s] is the document from index
    [idx], inside a string that started at [begin]. *)
Fixpoint scanstring_loop (doc : pystr) (begin : nat) (s : pystr) (idx : nat)
         (chunks : pystr) : scan pystr :=
  match s with
  | [] => Raise (errmsg "Unterminated string starting at" doc begin)
  | d :: s1 =>
      if d =? dquote then Scanned chunks s1 (idx + 1)
      else if d =? backslash then
        match s1 with
        | [] => Raise (errmsg "Unterminated string starting at" doc begin)
        | c :: s2 =>
            if negb (c =? chr "u") then
              match backslash_escape c with
              | Some ch => scanstring_loop doc begin s2 (idx + 2) (chunks ++ [ch])
              | None => Raise (errmsg "Invalid \escape" doc idx)
              end
            else
              match s2 with
              | h1 :: h2 :: h3 :: h4 :: s6 =>
                  match s6 with
                  | [] => Raise (errmsg "Invalid \uXXXX escape" doc (idx + 1))
                  | _ :: _ =>
                      match hex4 h1 h2 h3 h4 with
                      | None => Raise (errmsg "Invalid \uXXXX escape" doc (idx + 1))
                      | Some c1 =>
                          let single :=
                            scanstring_loop doc begin s6 (idx + 6) (chunks ++ [c1]) in
                          if is_high_surrogate c1 then
                            match s6 with
                            | b :: u :: g1 :: g2 :: g3 :: g4 :: s12 =>
                                match s12 with
                                | [] => single
                                | _ :: _ =>
                                    if (b =? backslash) && (u =? chr "u") then
                                      match hex4 g1 g2 g3 g4 with
                                      | None =>
                                          Raise (errmsg "Invalid \uXXXX escape"
                                                   doc (idx + 7))
                                      | Some c2 =>
                                          if is_low_surrogate c2 then
                                            scanstring_loop doc begin s12 (idx + 12)
                                              (chunks ++ [join_surrogates c1 c2])
                                          else single
                                      end
                                    else single
                                end
                            | _ => single
                            end
                          else single
                      end
                  end
              | _ => Raise (errmsg "Invalid \uXXXX escape" doc (idx + 1))
              end
        end
      else if d <=? 31 then Raise (errmsg "Invalid control character at" doc idx)
      else scanstring_loop doc begin s1 (idx + 1) (chunks ++ [d])
  end.

(** [scanstring(doc, idx)], [idx] being the index after the opening quote. *)
Definition scanstring (doc : pystr) (s : pystr) (idx : nat) : scan pystr :=
  scanstring_loop doc (idx - 1) s idx [].

(** The digits [s] starts with, and what follows them. *)
Fixpoint span_digits (s : pystr) : pystr * pystr :=
  match s with
  | c :: s' =>
      if is_digit c then let (ds, r) := span_digits s' in (c :: ds, r)
      else ([], s)
  | [] => ([], [])
  end.

(** [int(digits)] for a string of decimal digits. *)
Definition int_of_digits (ds : pystr) : Z :=
  Z.of_N (fold_left (fun acc c => 10 * acc + (c - chr "0")) ds 0).

Definition int_max_str_digits : nat := 4300.

(** [PyLong_FromString] on an optional sign and digits. *)
Definition PyLong_FromString (neg : bool) (ds : pystr) : exn + Z :=
  if Nat.ltb int_max_str_digits (List.length ds) then
    inl (ValueError
           (str "Exceeds the limit (4300 digits) for integer string conversion: value has "
            ++ repr_nat (List.length ds)
            ++ str " digits; use sys.set_int_max_str_digits() to increase the limit"))
  else inr (if neg then (- int_of_digits ds)%Z else int_of_digits ds).

(** The parts of [_match_number_unicode], each giving what it read and
    what follows: an optional sign; the integer digits (one [0], or a digit
    from 1 to 9 and any digits); a fraction (a point and at least one
    digit); an exponent ([e] or [E], an optional sign, at least one digit;
    anything less is left unread). *)
Definition scan_sign (s : pystr) : bool * pystr :=
  match s with
  | c :: s' => if c =? chr "-" then (true, s') else (false, s)
  | [] => (false, s)
  end.

Definition scan_integer (s : pystr) : option (pystr * pystr) :=
  match s with
  | [] => None
  | c :: s1 =>
      if (chr "1" <=? c) && (c <=? chr "9") then
        let (ds, r) := span_digits s1 in Some (c :: ds, r)
      else if c =? chr "0" then Some ([c], s1)
      else None
  end.

Definition scan_fraction (s : pystr) : pystr * pystr :=
  match s with
  | p :: f :: r =>
      if (p =? chr ".") && is_digit f then
        let (ds, r') := span_digits r in (p :: f :: ds, r')
      else ([], s)
  | _ => ([], s)
  end.

Definition scan_exponent (s : pystr) : pystr * pystr :=
  match s with
  | e :: r =>
      if (e =? chr "e") || (e =? chr "E") then
        let (sg, r') :=
          match r with
          | g :: (_ :: _) as r'' =>
              if (g =? chr "-") || (g =? chr "+") then ([g], r'')
              else ([], r)
          | _ => ([], r)
          end in
        match span_digits r' with
        | ([], _) => ([], s)
        | (ds, r'') => (e :: sg ++ ds, r'')
        end
      else ([], s)
  | [] => ([], s)
  end.

(** [_match_number_unicode]: an int when there is neither fraction nor
    exponent, a float otherwise. *)
Definition match_number (s : pystr) (start : nat) : scan pyobj :=
  let (neg, s0) := scan_sign s in
  let sign := if neg then [chr "-"] else [] in
  match scan_integer s0 with
  | None => StopIteration start
  | Some (integer, r1) =>
      let (frac, r2) := scan_fraction r1 in
      let (exp, r3) := scan_exponent r2 in
      let text := sign ++ integer ++ frac ++ exp in
      let next_idx := (start + List.length text)%nat in
      match frac, exp with
      | [], [] =>
          match PyLong_FromString neg integer with
          | inl e => Raise e
          | inr z => Scanned (PyInt z) r3 next_idx
          end
      | _, _ => Scanned (PyFloat text) r3 next_idx
      end
  end.

(** [s] starts with the ASCII word [w]: what follows it. *)
Fixpoint after_prefix (w s : pystr) : option pystr :=
  match w, s with
  | [], _ => Some s
  | a :: w', c :: s' => if a =? c then after_prefix w' s' else None
  | _ :: _, [] => None
  end.

Definition constant (w : string) (v : pyobj) (s : pystr) (idx : nat)
  : option (scan pyobj) :=
  match after_prefix (str w) s with
  | Some r => Some (Scanned v r (idx + String.length w))
  | None => None
  end.

(** The message of the [RecursionError] that [Py_EnterRecursiveCall] sets
    when the scanner may not enter one more array or object. *)
Definition recursion_message (what : string) : pystr :=
  str "maximum recursion depth exceeded while decoding a JSON "
  ++ str what ++ str " from a unicode string".

(** [scan_once_unicode], [_parse_array_unicode] and [_parse_object_unicode]
    (the two loops start at the first item).  [depth] is the number of
    arrays and objects that may still be entered, one inside the other,
    before the recursion limit of the interpreter is reached. *)
Fixpoint scan_once (fuel depth : nat) (doc : pystr) (s : pystr) (idx : nat)
  : scan pyobj :=
  match fuel with
  | O => OutOfFuel
  | S fuel' =>
      match s with
      | [] => StopIteration idx
      | c :: s1 =>
          let number := match_number s idx in
          let or_number (k : option (scan pyobj)) :=
            match k with Some r => r | None => number end in
          if c =? dquote then
            match scanstring doc s1 (idx + 1) with
            | Scanned v r i => Scanned (PyStr v) r i
            | StopIteration i => StopIteration i
            | Raise e => Raise e
            | OutOfFuel => OutOfFuel
            end
          else if c =? chr "{" then
            match depth with
            | O => Raise (RecursionError (recursion_message "object"))
            | S depth' =>
                let (s2, i2) := skip_whitespace s1 (idx + 1) in
                match s2 with
                | c2 :: s3 =>
                    if c2 =? chr "}" then Scanned (PyDict []) s3 (i2 + 1)
                    else parse_object_loop fuel' depth' doc s2 i2 []
                | [] => parse_object_loop fuel' depth' doc s2 i2 []
                end
            end
          else if c =? chr "[" then
            match depth with
            | O => Raise (RecursionError (recursion_message "array"))
            | S depth' =>
                let (s2, i2) := skip_whitespace s1 (idx + 1) in
                match s2 with
                | c2 :: s3 =>
                    if c2 =? chr "]" then Scanned (PyList []) s3 (i2 + 1)
                    else parse_array_loop fuel' depth' doc s2 i2 []
                | [] => parse_array_loop fuel' depth' doc s2 i2 []
                end
            end
          else if c =? chr "n" then or_number (constant "null" PyNone s idx)
          else if c =? chr "t" then or_number (constant "true" (PyBool true) s idx)
          else if c =? chr "f" then or_number (constant "false" (PyBool false) s idx)
          else if c =? chr "N" then
            or_number (constant "NaN" (PyFloat (str "nan")) s idx)
          else if c =? chr "I" then
            or_number (constant "Infinity" (PyFloat (str "inf")) s idx)
          else if c =? chr "-" then
            or_number (constant "-Infinity" (PyFloat (str "-inf")) s idx)
          else number
      end
  end

with parse_array_loop (fuel depth : nat) (doc : pystr) (s : pystr) (idx : nat)
       (rval : list pyobj) : scan pyobj :=
  match fuel with
  | O => OutOfFuel
  | S fuel' =>
      match scan_once fuel' depth doc s idx with
      | Scanned val s1 i1 =>
          let rval := rval ++ [val] in
          let (s2, i2) := skip_whitespace s1 i1 in
          match s2 with
          | c :: s3 =>
              if c =? chr "]" then Scanned (PyList rval) s3 (i2 + 1)
              else if c =? chr "," then
                let (s4, i4) := skip_whitespace s3 (i2 + 1) in
                parse_array_loop fuel' depth doc s4 i4 rval
              else Raise (errmsg "Expecting ',' delimiter" doc i2)
          | [] => Raise (errmsg "Expecting ',' delimiter" doc i2)
          end
      | StopIteration i => StopIteration i
      | Raise e => Raise e
      | OutOfFuel => OutOfFuel
      end
  end

with parse_object_loop (fuel depth : nat) (doc : pystr) (s : pystr) (idx : nat)
       (rval : list (pystr * pyobj)) : scan pyobj :=
  match fuel with
  | O => OutOfFuel
  | S fuel' =>
      let no_key :=
        Raise (errmsg "Expecting property name enclosed in double quotes" doc idx) in
      match s with
      | [] => no_key
      | q :: s1 =>
          if negb (q =? dquote) then no_key
          else
            match scanstring doc s1 (idx + 1) with
            | Scanned key s2 i2 =>
                let (s3, i3) := skip_whitespace s2 i2 in
                let no_colon := Raise (errmsg "Expecting ':' delimiter" doc i3) in
                match s3 with
                | [] => no_colon
                | c :: s4 =>
                    if negb (c =? chr ":") then no_colon
                    else
                      let (s5, i5) := skip_whitespace s4 (i3 + 1) in
                      match scan_once fuel' depth doc s5 i5 with
                      | Scanned val s6 i6 =>
                          let rval := dict_setitem rval key val in
                          let (s7, i7) := skip_whitespace s6 i6 in
                          match s7 with
                          | c' :: s8 =>
                              if c' =? chr "}" then Scanned (PyDict rval) s8 (i7 + 1)
                              else if c' =? chr "," then
                                let (s9, i9) := skip_whitespace s8 (i7 + 1) in
                                parse_object_loop fuel' depth doc s9 i9 rval
                              else Raise (errmsg "Expecting ',' delimiter" doc i7)
                          | [] => Raise (errmsg "Expecting ',' delimiter" doc i7)
                          end
                      | StopIteration i => StopIteration i
                      | Raise e => Raise e
                      | OutOfFuel => OutOfFuel
                      end
                end
            | StopIteration i => StopIteration i
            | Raise e => Raise e
            | OutOfFuel => OutOfFuel
            end
      end
  end.

(** Fuel that is enough for a document: two units for each character. *)
Definition scan_fuel (doc : pystr) : nat := 2 * List.length doc + 1.

(** The arrays and objects the scanner may enter, one inside the other,
    when [decode_jwt_part] calls [json.loads]: the recursion limit of the
    interpreter is 1000 ([sys.getrecursionlimit()]), the frames of the
    module, of [main], of [decode_jwt_part] and of the decoder are on the
    stack, and the 994th nested array or object raises [RecursionError]. *)
Definition recursion_budget : nat := 993.

(** What [decode] gives if the scanner ran out of fuel, which it never
    does. *)
Definition out_of_fuel : exn :=
  RecursionError (str "maximum recursion depth exceeded").

(** [JSONDecoder.decode]: leading whitespace, one value ([raw_decode] turns
    a [StopIteration] into "Expecting value"), trailing whitespace, and
    nothing else. *)
Definition decode (doc : pystr) : exn + pyobj :=
  let (s0, i0) := skip_whitespace doc 0 in
  match scan_once (scan_fuel doc) recursion_budget doc s0 i0 with
  | Scanned obj s1 i1 =>
      let (s2, i2) := skip_whitespace s1 i1 in
      match s2 with
      | [] => inr obj
      | _ :: _ => inl (errmsg "Extra data" doc i2)
      end
  | StopIteration i => inl (errmsg "Expecting value" doc i)
  | Raise e => inl e
  | OutOfFuel => inl out_of_fuel
  end.

(** [json.loads(s)] on a [str]. *)
Definition json_loads (s : pystr) : exn + pyobj :=
  match s with
  | 65279 :: _ =>
      inl (errmsg "Unexpected UTF-8 BOM (decode using utf-8-sig)" s 0)
  | _ => decode s
  end.


(** *** The encoder, as [json.dumps(obj, indent=2)] configures it:
    [ensure_ascii] on, item separator [","], key separator [": "]. *)

Section Encoder.

(** The text the encoder writes for the float [float(lit)] (its [repr], or
    [NaN], [Infinity], [-Infinity]). *)
Variable floatstr : pystr -> pystr.

(** The replacement of one character in [encode_basestring_ascii]. *)
Definition escape_ascii (c : N) : pystr :=
  if c =? backslash then [backslash; backslash]
  else if c =? dquote then [backslash; dquote]
  else if c =? 8 then str "\b"
  else if c =? 12 then str "\f"
  else if c =? 10 then str "\n"
  else if c =? 13 then str "\r"
  else if c =? 9 then str "\t"
  else if (chr " " <=? c) && (c <=? chr "~") then [c]
  else if c <? 65536 then str "\u" ++ hex_04x c
  else
    let n := c - 65536 in
    let s1 := N.lor 55296 (N.land (N.shiftr n 10) 1023) in
    let s2 := N.lor 56320 (N.land n 1023) in
    str "\u" ++ hex_04x s1 ++ str "\u" ++ hex_04x s2.

Definition encode_basestring_ascii (s : pystr) : pystr :=
  [dquote] ++ flat_map escape_ascii s ++ [dquote].

(** ['\n' + _indent * _current_indent_level] with [_indent = ' ' * 2]. *)
Definition newline_indent (level : nat) : pystr :=
  10 :: str_mul (str_mul (str " ") 2) (Z.of_nat level).

(** [_iterencode(o, _current_indent_level)], its chunks joined. *)
Fixpoint iterencode (o : pyobj) (level : nat) {struct o} : pystr :=
  match o with
  | PyStr s => encode_basestring_ascii s
  | PyNone => str "null"
  | PyBool true => str "true"
  | PyBool false => str "false"
  | PyInt z => repr_int z
  | PyFloat lit => floatstr lit
  | PyList [] => str "[]"
  | PyList (value :: lst) =>
      str "[" ++ newline_indent (S level) ++ iterencode value (S level)
      ++ (fix rest (lst : list pyobj) : pystr :=
            match lst with
            | [] => []
            | value :: lst' =>
                str "," ++ newline_indent (S level)
                ++ iterencode value (S level) ++ rest lst'
            end) lst
      ++ newline_indent level ++ str "]"
  | PyDict [] => str "{}"
  | PyDict ((key, value) :: dct) =>
      str "{" ++ newline_indent (S level)
      ++ encode_basestring_ascii key ++ str ": " ++ iterencode value (S level)
      ++ (fix rest (dct : list (pystr * pyobj)) : pystr :=
            match dct with
            | [] => []
            | (key, value) :: dct' =>
                str "," ++ newline_indent (S level)
                ++ encode_basestring_ascii key ++ str ": "
                ++ iterencode value (S level) ++ rest dct'
            end) dct
      ++ newline_indent level ++ str "}"
  end.

(** [json.dumps(obj, indent=2)] *)
Definition json_dumps (obj : pyobj) : pystr :=
  match obj with
  | PyStr s => encode_basestring_ascii s
  | _ => iterencode obj 0
  end.

End Encoder.

End Json.
Export Json.

(** ** The process: output streams and exit *)

Module Proc.

Record streams : Type := { stdout : pystr; stderr : pystr }.

(** How a computation ends: normally, by [sys.exit(code)], or by an
    exception nothing caught. *)
Inductive outcome (A : Type) : Type :=
| Normal (a : A)
| SystemExit (code : Z)
| Uncaught (e : exn).
Arguments Normal {A}.
Arguments SystemExit {A}.
Arguments Uncaught {A}.

Definition proc (A : Type) : Type := streams -> outcome A * streams.

Definition ret {A} (a : A) : proc A := fun w => (Normal a, w).

Definition bind {A B} (c : proc A) (k : A -> proc B) : proc B :=
  fun w =>
    match c w with
    | (Normal a, w') => k a w'
    | (SystemExit code, w') => (SystemExit code, w')
    | (Uncaught e, w') => (Uncaught e, w')
    end.

(** [print(s)] and [print(s, file=sys.stderr)] *)
Definition print (s : pystr) : proc unit :=
  fun w => (Normal tt, {| stdout := stdout w ++ s ++ [10]; stderr := stderr w |}).

Definition print_stderr (s : pystr) : proc unit :=
  fun w => (Normal tt, {| stdout := stdout w; stderr := stderr w ++ s ++ [10] |}).

Definition sys_exit {A} (code : Z) : proc A := fun w => (SystemExit code, w).

Definition raise {A} (e : exn) : proc A := fun w => (Uncaught e, w).

(** The exit status of the process. *)
Definition exit_status {A} (o : outcome A) : Z :=
  match o with
  | Normal _ => 0
  | SystemExit code => code
  | Uncaught _ => 1
  end.

End Proc.
Export Proc.

Declare Scope proc_scope.
Delimit Scope proc_scope with proc.
Notation "x <- c1 ;; c2" := (bind c1 (fun x => c2))
  (at level 61, c1 at next level, right associativity) : proc_scope.
Notation "c1 ;; c2" := (bind c1 (fun _ => c2))
  (at level 61, right associativity) : proc_scope.

(** ** utils/JWTdecode.py *)

Module JWTdecode.

(** [def pad_base64(s)]: "Add padding to base64 string if needed". *)
Definition pad_base64 (s : pystr) : pystr :=
  s ++ str_mul (str "=") (4 - len s mod 4).

(** [def decode_jwt_part(encoded_part)]: the parsed JSON value, or the
    string [f"Error decoding: {e}"] when any step raised. *)
Definition try_decode (encoded_part : pystr) : exn + pyobj :=
  let padded := pad_base64 encoded_part in
  match urlsafe_b64decode padded with
  | inl e => inl e
  | inr decoded_bytes =>
      match decode_utf8 decoded_bytes with
      | inl e => inl e
      | inr decoded_str => json_loads decoded_str
      end
  end.

Definition decode_jwt_part (encoded_part : pystr) : pyobj :=
  match try_decode encoded_part with
  | inr value => value
  | inl e => PyStr (str "Error decoding: " ++ exn_str e)
  end.

Section Main.

Variable floatstr : pystr -> pystr.

Open Scope proc_scope.

(** [def main()], on the text [sys.stdin.read()] returns. *)
Definition main (stdin : pystr) : proc unit :=
  let jwt_token := strip stdin in
  (match jwt_token with
   | [] =>
       print_stderr (str "Error: No JWT token provided") ;;
       sys_exit 1
   | _ :: _ => ret tt
   end) ;;
  let parts := split jwt_token (chr ".") in
  (if negb (len parts =? 3)%Z then
     print_stderr
       (str "Error: Invalid JWT format. Expected 3 parts separated by dots.") ;;
     sys_exit 1
   else ret tt) ;;
  match parts with
  | [header; payload; signature] =>
      print (str "=== JWT HEADER ===") ;;
      let header_decoded := decode_jwt_part header in
      print (json_dumps floatstr header_decoded) ;;
      print (10 :: str "=== JWT PAYLOAD ===") ;;
      let payload_decoded := decode_jwt_part payload in
      print (json_dumps floatstr payload_decoded) ;;
      print (10 :: str "=== JWT SIGNATURE ===") ;;
      print (str "Signature (base64url): " ++ signature) ;;
      print (str "Note: Signature verification requires the secret key")
  | _ =>
      raise (ValueError (str "wrong number of values to unpack (expected 3)"))
  end.

(** One run of the script: how it ended and what it wrote. *)
Definition run (stdin : pystr) : outcome unit * streams :=
  main stdin {| stdout := []; stderr := [] |}.

Definition exit_code (stdin : pystr) : Z := exit_status (fst (run stdin)).
Definition output (stdin : pystr) : pystr := stdout (snd (run stdin)).
Definition errors (stdin : pystr) : pystr := stderr (snd (run stdin)).

End Main.

End JWTdecode.
Export JWTdecode.

(** ** Reference definitions

    What the statements below compare the script with: the padding rule and
    the report layout as the specification words them, and the encodings a
    token segment is produced with. *)

Module Spec.

(** The padding rule of the specification: [(4 - (length mod 4)) mod 4]
    characters [=] are appended. *)
Definition pad_count_spec (s : pystr) : Z := (4 - len s mod 4) mod 4.

Definition pad_base64_spec (s : pystr) : pystr :=
  s ++ str_mul (str "=") (pad_count_spec s).

(** The number of characters the script's [pad_base64] appends. *)
Definition pad_count (s : pystr) : nat := Z.to_nat (4 - len s mod 4).

(** The report on standard output, given the text of the header section,
    the text of the payload section and the signature segment. *)
Definition report (header_text payload_text signature : pystr) : pystr :=
  str "=== JWT HEADER ===" ++ [10]
  ++ header_text ++ [10]
  ++ [10] ++ str "=== JWT PAYLOAD ===" ++ [10]
  ++ payload_text ++ [10]
  ++ [10] ++ str "=== JWT SIGNATURE ===" ++ [10]
  ++ str "Signature (base64url): " ++ signature ++ [10]
  ++ str "Note: Signature verification requires the secret key" ++ [10].

Definition empty_input_diagnostic : pystr :=
  str "Error: No JWT token provided".

(** The malformed-format message of the specification; the script writes
    it after the prefix [Error: ]. *)
Definition malformed_message : pystr :=
  str "Invalid JWT format. Expected 3 parts separated by dots.".

(** The base64url alphabet (RFC 4648, section 5). *)
Definition urlsafe_alphabet (v : N) : N :=
  if v <? 26 then chr "A" + v
  else if v <? 52 then chr "a" + (v - 26)
  else if v <? 62 then chr "0" + (v - 52)
  else if v =? 62 then chr "-"
  else chr "_".

(** The base64url encoding of a byte string without padding, as a JWT
    segment carries it: three bytes give four characters, a last group of
    one byte gives two and of two bytes gives three. *)
Fixpoint b64url_encode (b : pybytes) : pystr :=
  match b with
  | [] => []
  | [b1] =>
      [urlsafe_alphabet (b1 / 4); urlsafe_alphabet (b1 mod 4 * 16)]
  | [b1; b2] =>
      [urlsafe_alphabet (b1 / 4);
       urlsafe_alphabet (b1 mod 4 * 16 + b2 / 16);
       urlsafe_alphabet (b2 mod 16 * 4)]
  | b1 :: b2 :: b3 :: rest =>
      urlsafe_alphabet (b1 / 4)
      :: urlsafe_alphabet (b1 mod 4 * 16 + b2 / 16)
      :: urlsafe_alphabet (b2 mod 16 * 4 + b3 / 64)
      :: urlsafe_alphabet (b3 mod 64)
      :: b64url_encode rest
  end.

Definition is_byte (b : N) : bool := b <? 256.

(** The code points UTF-8 encodes: up to [0x10FFFF], surrogates apart. *)
Definition is_scalar_value (c : N) : bool :=
  (c <? 55296) || ((57344 <=? c) && (c <? 1114112)).

(** The UTF-8 encoding of one code point and of a text. *)
Definition utf8_encode_char (c : N) : pybytes :=
  if c <? 128 then [c]
  else if c <? 2048 then [192 + c / 64; 128 + c mod 64]
  else if c <? 65536 then
    [224 + c / 4096; 128 + c / 64 mod 64; 128 + c mod 64]
  else
    [240 + c / 262144; 128 + c / 4096 mod 64; 128 + c / 64 mod 64;
     128 + c mod 64].

Definition utf8_encode (s : pystr) : pybytes := flat_map utf8_encode_char s.

(** A segment that carries the text [text]. *)
Definition encode_segment (text : pystr) : pystr :=
  b64url_encode (utf8_encode text).

(** A double-quoted JSON string literal with the escaped text [body]. *)
Definition quoted (body : pystr) : pystr := [dquote] ++ body ++ [dquote].

(** The inline form of a failure [e]: the JSON string literal of
    [Error decoding: <cause>]. *)
Definition inline_error (e : exn) : pystr :=
  quoted (str "Error decoding: " ++ flat_map escape_ascii (exn_str e)).

(** The text of a section of the report for the outcome of the decoding
    steps on a segment: the encoder's text of the value, or the inline form
    of the failure. *)
Definition render_decoded (floatstr : pystr -> pystr) (r : exn + pyobj)
  : pystr :=
  match r with
  | inr value => json_dumps floatstr value
  | inl e => inline_error e
  end.

(** [sep.join(items)] *)
Fixpoint join (sep : pystr) (items : list pystr) : pystr :=
  match items with
  | [] => []
  | [x] => x
  | x :: rest => x ++ sep ++ join sep rest
  end.

(** What decoding an empty segment returns. *)
Definition empty_segment_error : pystr :=
  str "Error decoding: Expecting value: line 1 column 1 (char 0)".

(** A float printer for the examples, none of which has a float in it. *)
Definition floatstr_literal (lit : pystr) : pystr := lit.

End Spec.
Export Spec.

(** ** Finite checks

    Boolean checks over the 64 sextets and over pairs of bytes; the
    round-trip proof of base64url runs them on every case. *)

Module Checks.

(** The numbers [0 .. n-1]. *)
Definition below (n : nat) : list N := map N.of_nat (seq 0 n).

(** The character of sextet [v] is ASCII, is not the pad character and
    decodes, after the URL-safe translation, to [v]. *)
Definition sextet_ok (v : N) : bool :=
  match table_a2b_base64 (urlsafe_decode_translation (urlsafe_alphabet v)) with
  | Some w =>
      (w =? v)
      && negb (urlsafe_decode_translation (urlsafe_alphabet v) =? BASE64_PAD)
  | None => false
  end.

(** The first byte of a group comes back from its first two sextets. *)
Definition first_byte_ok (b1 b2 : N) : bool :=
  uchar (N.lor (N.shiftl (b1 / 4) 2) (N.shiftr (b1 mod 4 * 16 + b2 / 16) 4))
  =? b1.

(** What the decoder keeps in [leftchar] and writes for the second and
    third byte of a group. *)
Definition later_bytes_ok (b1 b2 : N) : bool :=
  (N.land (b1 mod 4 * 16 + b2 / 16) 15 =? b2 / 16)
  && (uchar (N.lor (N.shiftl (b1 / 16) 4)
                   (N.shiftr (b1 mod 16 * 4 + b2 / 64) 2)) =? b1)
  && (N.land (b1 mod 16 * 4 + b2 / 64) 3 =? b2 / 64)
  && (uchar (N.lor (N.shiftl (b1 / 64) 6) (b1 mod 64)) =? b1).

(** The least number of pad characters the decoder needs after the
    unpadded encoding of [b]. *)
Fixpoint required_pads (b : pybytes) : nat :=
  match b with
  | [] => 0
  | [_] => 2
  | [_; _] => 1
  | _ :: _ :: _ :: rest => required_pads rest
  end.

End Checks.
Export Checks.

(** ** Shapes of segments and of output text *)

Module Shapes.

(** A character the decoder reads as a sextet: a letter, a digit, [-] or
    [_], and also [+] or [/]. *)
Definition is_b64url_char (c : N) : bool :=
  (c <? 128)
  && match table_a2b_base64 (urlsafe_decode_translation c) with
     | Some _ => true
     | None => false
     end.

(** A string without the character [.]. *)
Definition dot_free (s : pystr) : bool :=
  forallb (fun c => negb (c =? chr ".")) s.

(** The number of characters [.] in a string. *)
Definition count_dots (s : pystr) : nat := count_occ N.eq_dec s (chr ".").

(** A printable ASCII character, from the space to the tilde. *)
Definition printable (c : N) : bool := (chr " " <=? c) && (c <=? chr "~").

(** A printable ASCII character or a line feed. *)
Definition printable_or_newline (c : N) : bool := printable c || (c =? 10).

(** The message of [binascii.Error] for [n] data characters when [n] is one
    more than a multiple of 4. *)
Definition invalid_length_message (n : Z) : pystr :=
  str "Invalid base64-encoded string: number of data characters ("
  ++ repr_int n ++ str ") cannot be 1 more than a multiple of 4".

(** A float printer that always writes the same ASCII text. *)
Definition floatstr_zero (lit : pystr) : pystr := str "0.0".

End Shapes.
Export Shapes.

(** * Properties *)

Ltac Zify.zify_post_hook ::= Z.to_euclidean_division_equations.

(** ** Padding *)

Lemma str_mul_char (c : N) (n : Z) : str_mul [c] n = repeat c (Z.to_nat n).
Proof.
  unfold str_mul. induction (Z.to_nat n) as [|k IH]; simpl; [reflexivity|].
  now rewrite IH.
Qed.

Lemma len_app {A} (a b : list A) : len (a ++ b) = (len a + len b)%Z.
Proof. unfold len. rewrite length_app. lia. Qed.

Lemma len_repeat {A} (c : A) (k : nat) : len (repeat c k) = Z.of_nat k.
Proof. unfold len. now rewrite repeat_length. Qed.

Lemma len_nonneg {A} (s : list A) : (0 <= len s)%Z.
Proof. unfold len. lia. Qed.

Lemma pad_base64_repeat (s : pystr) :
  pad_base64 s = s ++ repeat (chr "=") (pad_count s).
Proof. unfold pad_base64, pad_count. now rewrite <- str_mul_char. Qed.

Lemma pad_count_range (s : pystr) : (1 <= pad_count s <= 4)%nat.
Proof. unfold pad_count. pose proof (len_nonneg s). lia. Qed.

Lemma pad_count_multiple_of_4 (s : pystr) :
  (len s mod 4 = 0)%Z -> pad_count s = 4%nat.
Proof. unfold pad_count. intros ->. reflexivity. Qed.

Lemma len_pad_base64 (s : pystr) :
  len (pad_base64 s) = (len s + (4 - len s mod 4))%Z.
Proof.
  rewrite pad_base64_repeat, len_app, len_repeat. unfold pad_count.
  pose proof (len_nonneg s). lia.
Qed.

Lemma pad_base64_spec_repeat (s : pystr) :
  pad_base64_spec s = s ++ repeat (chr "=") (Z.to_nat (pad_count_spec s)).
Proof. unfold pad_base64_spec. now rewrite <- str_mul_char. Qed.

(** The script and the rule of the specification append the same number of
    characters exactly when the length is not a multiple of 4. *)
Lemma pad_count_agrees_iff (s : pystr) :
  Z.of_nat (pad_count s) = pad_count_spec s <-> (len s mod 4 <> 0)%Z.
Proof.
  unfold pad_count, pad_count_spec. pose proof (len_nonneg s). lia.
Qed.

Lemma pad_base64_agrees_off_multiples (s : pystr) :
  (len s mod 4 <> 0)%Z -> pad_base64 s = pad_base64_spec s.
Proof.
  intros H. rewrite pad_base64_repeat, pad_base64_spec_repeat.
  apply pad_count_agrees_iff in H. now rewrite <- H, Nat2Z.id.
Qed.

Lemma pad_base64_on_multiples (s : pystr) :
  (len s mod 4 = 0)%Z ->
  pad_base64 s = s ++ str "====" /\ pad_base64_spec s = s.
Proof.
  intros H. split.
  - now rewrite pad_base64_repeat, pad_count_multiple_of_4.
  - rewrite pad_base64_spec_repeat. unfold pad_count_spec. rewrite H.
    simpl. apply app_nil_r.
Qed.

(** The rule of the specification is idempotent. *)
Lemma pad_base64_spec_idempotent (s : pystr) :
  pad_base64_spec (pad_base64_spec s) = pad_base64_spec s.
Proof.
  assert (H : (len (pad_base64_spec s) mod 4 = 0)%Z).
  { rewrite pad_base64_spec_repeat, len_app, len_repeat.
    unfold pad_count_spec. pose proof (len_nonneg s). lia. }
  rewrite pad_base64_spec_repeat at 1. unfold pad_count_spec at 1.
  rewrite H. simpl. apply app_nil_r.
Qed.

(** The script's padding is applied again in full to a padded string. *)
Lemma pad_base64_twice (s : pystr) :
  pad_base64 (pad_base64 s) = pad_base64 s ++ str "====".
Proof.
  apply pad_base64_on_multiples. rewrite len_pad_base64.
  pose proof (len_nonneg s). lia.
Qed.

(** C1 (the script against the rule).  On the four-character segment
    [abcd] the script appends four [=] where the rule
    [(4 - (length mod 4)) mod 4] appends none. *)
Theorem pad_base64_abcd_appends_four :
  pad_base64 (str "abcd") = str "abcd===="
  /\ pad_base64_spec (str "abcd") = str "abcd"
  /\ pad_base64 (str "abcd") <> pad_base64_spec (str "abcd").
Proof. repeat split; try reflexivity. discriminate. Qed.

(** C4 (the script against idempotence).  Padding the padded form of [ab]
    again appends four more [=]: [pad (pad s)] is not [pad s]. *)
Theorem pad_base64_ab_not_idempotent :
  pad_base64 (str "ab") = str "ab=="
  /\ pad_base64 (pad_base64 (str "ab")) = str "ab======"
  /\ pad_base64 (pad_base64 (str "ab")) <> pad_base64 (str "ab").
Proof. repeat split; try reflexivity. discriminate. Qed.

(** C9.  [pad_base64 s] is [s] followed by [4 - len(s) mod 4] characters
    [=], a number between one and four; the length of the result is a
    multiple of 4; when the length of [s] is a multiple of 4 exactly four
    are appended; the result is strictly longer than [s]. *)
Theorem pad_base64_appends_one_to_four (s : pystr) :
  pad_base64 s = s ++ repeat (chr "=") (pad_count s)
  /\ (1 <= pad_count s <= 4)%nat
  /\ (len (pad_base64 s) mod 4 = 0)%Z
  /\ ((len s mod 4 = 0)%Z -> pad_base64 s = s ++ str "====")
  /\ (len s < len (pad_base64 s))%Z.
Proof.
  pose proof (len_nonneg s) as Hs.
  split; [apply pad_base64_repeat|].
  split; [apply pad_count_range|].
  split; [rewrite len_pad_base64; lia|].
  split; [intros H; now apply pad_base64_on_multiples|].
  rewrite len_pad_base64. lia.
Qed.

Lemma pad_base64_appends_one_to_four_witness :
  pad_base64 (str "eyJhbGciOiJIUzI1NiJ9") = str "eyJhbGciOiJIUzI1NiJ9===="
  /\ (len (pad_base64 (str "eyJhbGciOiJIUzI1NiJ9")) mod 4 = 0)%Z.
Proof.
  destruct (pad_base64_appends_one_to_four (str "eyJhbGciOiJIUzI1NiJ9"))
    as (_ & _ & Hlen & Hfour & _).
  split; [apply Hfour; reflexivity | exact Hlen].
Defined.

(** ** The three paths of [main] *)

Section MainPaths.

Variable floatstr : pystr -> pystr.

Lemma split_on_nonempty (sep : N) (s cur : pystr) : split_on sep s cur <> [].
Proof.
  revert cur. induction s as [|c s IH]; intros cur; simpl; [discriminate|].
  destruct (c =? sep); [discriminate | apply IH].
Qed.

Lemma split_empty (sep : N) : split [] sep = [[]].
Proof. reflexivity. Qed.

Lemma len_is_3 {A} (l : list A) :
  (len l =? 3)%Z = true <-> exists a b c, l = [a; b; c].
Proof.
  unfold len. split.
  - intros H. apply Z.eqb_eq in H.
    destruct l as [|a [|b [|c [|d l]]]]; simpl in H; try lia.
    now exists a, b, c.
  - intros (a & b & c & ->). reflexivity.
Qed.

(** Empty input: the diagnostic on standard error, and [sys.exit(1)]. *)
Lemma main_empty (stdin : pystr) :
  strip stdin = [] ->
  run floatstr stdin =
    (SystemExit 1,
     {| stdout := []; stderr := empty_input_diagnostic ++ [10] |}).
Proof. intros H. unfold run, main. rewrite H. reflexivity. Qed.

(** A token that does not split into three parts: the diagnostic on
    standard error, and [sys.exit(1)]. *)
Lemma main_malformed (stdin : pystr) :
  strip stdin <> [] ->
  (len (split (strip stdin) (chr ".")) =? 3)%Z = false ->
  run floatstr stdin =
    (SystemExit 1,
     {| stdout := [];
        stderr := str "Error: " ++ malformed_message ++ [10] |}).
Proof.
  intros Hne Hlen. unfold run, main.
  destruct (strip stdin) as [|c t] eqn:E; [congruence|].
  unfold bind at 1. cbn [ret]. unfold bind at 1.
  rewrite Hlen. reflexivity.
Qed.

(** A token of three parts: the report on standard output, nothing on
    standard error, and a normal return. *)
Lemma main_three_parts (stdin header payload signature : pystr) :
  split (strip stdin) (chr ".") = [header; payload; signature] ->
  run floatstr stdin =
    (Normal tt,
     {| stdout := report (json_dumps floatstr (decode_jwt_part header))
                         (json_dumps floatstr (decode_jwt_part payload))
                         signature;
        stderr := [] |}).
Proof.
  intros H. unfold run, main.
  destruct (strip stdin) as [|c t] eqn:E; [discriminate H|].
  rewrite H. unfold bind, ret, print. cbn [len length negb Z.eqb Z.of_nat
    Pos.of_succ_nat Pos.succ Pos.eqb stdout stderr].
  f_equal. f_equal. unfold report. cbn [app].
  repeat rewrite <- app_assoc. reflexivity.
Qed.

End MainPaths.

(** ** Blank input *)

Lemma lstrip_all_space (s : pystr) :
  lstrip s = [] <-> forallb isspace s = true.
Proof.
  induction s as [|c s IH]; simpl; [tauto|].
  destruct (isspace c); simpl; [exact IH|].
  split; discriminate.
Qed.

Lemma lstrip_head (s : pystr) (c : N) (t : pystr) :
  lstrip s = c :: t -> isspace c = false.
Proof.
  induction s as [|d s IH]; simpl; [discriminate|].
  destruct (isspace d) eqn:E; [exact IH|].
  intros [= <- _]. exact E.
Qed.

Lemma forallb_reversed {A} (f : A -> bool) (l : list A) :
  forallb f (rev l) = forallb f l.
Proof.
  apply eq_true_iff_eq. rewrite !forallb_forall.
  split; intros H x Hx; apply H; [now apply in_rev in Hx | now apply in_rev].
Qed.

(** [strip] gives the empty string exactly on the strings that are empty or
    all whitespace. *)
Lemma strip_empty_iff (s : pystr) :
  strip s = [] <-> forallb isspace s = true.
Proof.
  unfold strip, rstrip. split.
  - intros H.
    assert (H1 : lstrip (rev (lstrip s)) = []).
    { apply (f_equal (@rev N)) in H. now rewrite rev_involutive in H. }
    apply lstrip_all_space in H1. rewrite forallb_reversed in H1.
    apply lstrip_all_space.
    destruct (lstrip s) as [|c t] eqn:E; [reflexivity|].
    apply lstrip_head in E. simpl in H1. rewrite E in H1. discriminate.
  - intros H. apply lstrip_all_space in H. now rewrite H.
Qed.

(** C7.  On an input that is empty or all whitespace the script exits with
    status 1, writes the empty-input diagnostic to standard error and
    nothing to standard output. *)
Theorem main_blank_input (floatstr : pystr -> pystr) (stdin : pystr) :
  forallb isspace stdin = true ->
  run floatstr stdin =
    (SystemExit 1,
     {| stdout := []; stderr := str "Error: No JWT token provided" ++ [10] |})
  /\ exit_code floatstr stdin = 1%Z
  /\ exit_code floatstr stdin <> 0%Z
  /\ output floatstr stdin = []
  /\ errors floatstr stdin = str "Error: No JWT token provided" ++ [10].
Proof.
  intros H. apply strip_empty_iff in H.
  unfold exit_code, output, errors.
  rewrite (main_empty floatstr stdin H). cbn.
  repeat split; try reflexivity. discriminate.
Qed.

Lemma main_blank_input_witness :
  exit_code floatstr_literal [32; 9; 10; 160; 8195; 10] = 1%Z
  /\ output floatstr_literal [32; 9; 10; 160; 8195; 10] = [].
Proof.
  destruct (main_blank_input floatstr_literal [32; 9; 10; 160; 8195; 10])
    as (_ & H1 & _ & H2 & _); [reflexivity|].
  split; [exact H1 | exact H2].
Defined.

(** ** Malformed tokens *)

(** C5.  On a non-blank input whose trimmed form does not split on [.] into
    exactly three segments the script exits with status 1, writes the line
    [Error: Invalid JWT format. Expected 3 parts separated by dots.] to
    standard error and nothing to standard output. *)
Theorem main_malformed_token (floatstr : pystr -> pystr) (stdin : pystr) :
  strip stdin <> [] ->
  List.length (split (strip stdin) (chr ".")) <> 3%nat ->
  run floatstr stdin =
    (SystemExit 1,
     {| stdout := [];
        stderr := str "Error: " ++ malformed_message ++ [10] |})
  /\ exit_code floatstr stdin = 1%Z
  /\ exit_code floatstr stdin <> 0%Z
  /\ output floatstr stdin = []
  /\ errors floatstr stdin =
       str "Error: Invalid JWT format. Expected 3 parts separated by dots."
       ++ [10].
Proof.
  intros Hne Hlen.
  assert (H : (len (split (strip stdin) (chr ".")) =? 3)%Z = false).
  { apply Z.eqb_neq. unfold len. lia. }
  unfold exit_code, output, errors.
  rewrite (main_malformed floatstr stdin Hne H). cbn.
  repeat split; try reflexivity. discriminate.
Qed.

Lemma main_malformed_token_witness :
  exit_code floatstr_literal (str "onlyonepart") = 1%Z
  /\ output floatstr_literal (str "onlyonepart") = []
  /\ exit_code floatstr_literal (str "a.b.c.d") = 1%Z.
Proof.
  destruct (main_malformed_token floatstr_literal (str "onlyonepart"))
    as (_ & H1 & _ & H2 & _); [discriminate | discriminate |].
  destruct (main_malformed_token floatstr_literal (str "a.b.c.d"))
    as (_ & H3 & _); [discriminate | discriminate |].
  repeat split; assumption.
Defined.

(** ** Tokens of three segments *)

(** C6.  Whenever the trimmed input splits into exactly three segments the
    script returns normally, with exit status 0 and nothing on standard
    error, whatever [decode_jwt_part] made of the header and the payload:
    its result, a value or an error string, goes into the report. *)
Theorem main_three_segments_exit_0
  (floatstr : pystr -> pystr) (stdin header payload signature : pystr) :
  split (strip stdin) (chr ".") = [header; payload; signature] ->
  fst (run floatstr stdin) = Normal tt
  /\ exit_code floatstr stdin = 0%Z
  /\ errors floatstr stdin = []
  /\ output floatstr stdin =
       report (json_dumps floatstr (decode_jwt_part header))
              (json_dumps floatstr (decode_jwt_part payload))
              signature.
Proof.
  intros H. unfold exit_code, output, errors.
  rewrite (main_three_parts floatstr stdin header payload signature H).
  repeat split.
Qed.

Lemma main_three_segments_exit_0_witness :
  exit_code floatstr_literal (str "not base64!.@@@.sig") = 0%Z
  /\ errors floatstr_literal (str "not base64!.@@@.sig") = [].
Proof.
  destruct (main_three_segments_exit_0 floatstr_literal
              (str "not base64!.@@@.sig")
              (str "not base64!") (str "@@@") (str "sig"))
    as (_ & H1 & H2 & _); [reflexivity|].
  split; [exact H1 | exact H2].
Defined.

(** C10.  The input [..] splits into three empty segments; the script
    returns normally (exit status 0) and writes the full report, where the
    header and payload sections are the inline error string of an empty
    segment and nothing follows [Signature (base64url): ]. *)
Theorem main_two_dots (floatstr : pystr -> pystr) :
  split (strip (str "..")) (chr ".") = [[]; []; []]
  /\ decode_jwt_part [] = PyStr empty_segment_error
  /\ run floatstr (str "..") =
       (Normal tt,
        {| stdout := report (quoted empty_segment_error)
                            (quoted empty_segment_error) [];
           stderr := [] |})
  /\ exit_code floatstr (str "..") = 0%Z.
Proof.
  assert (H : split (strip (str "..")) (chr ".") = [[]; []; []])
    by reflexivity.
  assert (D : decode_jwt_part [] = PyStr empty_segment_error)
    by (vm_compute; reflexivity).
  split; [exact H|]. split; [exact D|].
  unfold exit_code.
  rewrite (main_three_parts floatstr _ _ _ _ H), D.
  split; reflexivity.
Qed.

(** ** base64url: decoding what was encoded *)

Lemma forall_below (P : N -> bool) (n : nat) :
  forallb P (below n) = true -> forall v, v < N.of_nat n -> P v = true.
Proof.
  intros H v Hv. rewrite forallb_forall in H. apply H.
  unfold below. rewrite <- (N2Nat.id v). apply in_map, in_seq. lia.
Qed.

Lemma forall_below2 (P : N -> N -> bool) (n m : nat) :
  forallb (fun a => forallb (P a) (below m)) (below n) = true ->
  forall a b, a < N.of_nat n -> b < N.of_nat m -> P a b = true.
Proof.
  intros H a b Ha Hb.
  apply (forall_below (P a) m); [|exact Hb].
  now apply (forall_below (fun a => forallb (P a) (below m)) n).
Qed.

Lemma sextet_ok_all (v : N) : v < 64 -> sextet_ok v = true.
Proof. apply (forall_below sextet_ok 64). vm_compute. reflexivity. Qed.

Lemma first_byte_ok_all (b1 b2 : N) :
  b1 < 256 -> b2 < 256 -> first_byte_ok b1 b2 = true.
Proof. apply (forall_below2 first_byte_ok 256 256). vm_compute. reflexivity. Qed.

Lemma later_bytes_ok_all (b1 b2 : N) :
  b1 < 256 -> b2 < 256 -> later_bytes_ok b1 b2 = true.
Proof. apply (forall_below2 later_bytes_ok 256 256). vm_compute. reflexivity. Qed.

Lemma first_byte (b1 b2 : N) : b1 < 256 -> b2 < 256 ->
  uchar (N.lor (N.shiftl (b1 / 4) 2) (N.shiftr (b1 mod 4 * 16 + b2 / 16) 4))
  = b1.
Proof. intros H1 H2. apply N.eqb_eq. now apply first_byte_ok_all. Qed.

Lemma later_bytes (b1 b2 : N) : b1 < 256 -> b2 < 256 ->
  N.land (b1 mod 4 * 16 + b2 / 16) 15 = b2 / 16
  /\ uchar (N.lor (N.shiftl (b1 / 16) 4)
                  (N.shiftr (b1 mod 16 * 4 + b2 / 64) 2)) = b1
  /\ N.land (b1 mod 16 * 4 + b2 / 64) 3 = b2 / 64
  /\ uchar (N.lor (N.shiftl (b1 / 64) 6) (b1 mod 64)) = b1.
Proof.
  intros H1 H2. pose proof (later_bytes_ok_all b1 b2 H1 H2) as H.
  unfold later_bytes_ok in H. rewrite !andb_true_iff, !N.eqb_eq in H. tauto.
Qed.

(** Induction on a list three elements at a time. *)
Lemma list_ind3 {A} (P : list A -> Prop) :
  P [] -> (forall a, P [a]) -> (forall a b, P [a; b]) ->
  (forall a b c l, P l -> P (a :: b :: c :: l)) ->
  forall l, P l.
Proof.
  intros H0 H1 H2 H3. fix IH 1.
  intros [|a [|b [|c l]]]; [exact H0 | apply H1 | apply H2 | apply H3, IH].
Qed.

Local Abbreviation tr := urlsafe_decode_translation.

(** One step of the decoder on the character of a sextet. *)
Lemma a2b_loop_sextet (v : N) (rest : pybytes) (q lc pads : N) (out : pybytes) :
  v < 64 ->
  a2b_loop (tr (urlsafe_alphabet v) :: rest) q lc pads out =
    if q =? 0 then a2b_loop rest 1 v 0 out
    else if q =? 1 then
      a2b_loop rest 2 (N.land v 15) 0
        (out ++ [uchar (N.lor (N.shiftl lc 2) (N.shiftr v 4))])
    else if q =? 2 then
      a2b_loop rest 3 (N.land v 3) 0
        (out ++ [uchar (N.lor (N.shiftl lc 4) (N.shiftr v 2))])
    else a2b_loop rest 0 0 0 (out ++ [uchar (N.lor (N.shiftl lc 6) v)]).
Proof.
  intros Hv. pose proof (sextet_ok_all v Hv) as H. unfold sextet_ok in H.
  cbn [a2b_loop].
  destruct (table_a2b_base64 (tr (urlsafe_alphabet v))) as [w|]; [|discriminate].
  apply andb_true_iff in H. destruct H as [Hw Hpad].
  apply N.eqb_eq in Hw. subst w.
  apply negb_true_iff in Hpad. rewrite Hpad. reflexivity.
Qed.

Lemma byte_bounds (b : N) : is_byte b = true -> b < 256.
Proof. apply N.ltb_lt. Qed.

Ltac sextets :=
  repeat (rewrite a2b_loop_sextet by lia; cbn [N.eqb Pos.eqb]).

(** A full group: four characters give the three bytes back. *)
Lemma a2b_loop_group (b1 b2 b3 : N) (rest out : pybytes) :
  b1 < 256 -> b2 < 256 -> b3 < 256 ->
  a2b_loop (tr (urlsafe_alphabet (b1 / 4))
            :: tr (urlsafe_alphabet (b1 mod 4 * 16 + b2 / 16))
            :: tr (urlsafe_alphabet (b2 mod 16 * 4 + b3 / 64))
            :: tr (urlsafe_alphabet (b3 mod 64)) :: rest) 0 0 0 out =
  a2b_loop rest 0 0 0 (out ++ [b1; b2; b3]).
Proof.
  intros H1 H2 H3. sextets.
  rewrite (first_byte b1 b2 H1 H2).
  destruct (later_bytes b1 b2 H1 H2) as (E1 & _).
  destruct (later_bytes b2 b3 H2 H3) as (_ & E2 & E3 & _).
  destruct (later_bytes b3 0 H3 ltac:(lia)) as (_ & _ & _ & E4).
  rewrite E1, E2, E3, E4. now rewrite <- !app_assoc.
Qed.

(** Pad characters between groups are skipped. *)
Lemma a2b_loop_pads_at_0 (k : nat) (out : pybytes) :
  a2b_loop (repeat BASE64_PAD k) 0 0 0 out = inr out.
Proof. induction k as [|k IH]; [reflexivity | exact IH]. Qed.

(** Decoding the encoding of [b] followed by enough pad characters gives
    [b] back. *)
Lemma a2b_loop_encode (b : pybytes) :
  forallb is_byte b = true ->
  forall (k : nat) (out : pybytes), (required_pads b <= k)%nat ->
  a2b_loop (map tr (b64url_encode b) ++ repeat BASE64_PAD k) 0 0 0 out =
    inr (out ++ b).
Proof.
  induction b as [|b1|b1 b2|b1 b2 b3 rest IH] using list_ind3;
    cbn [forallb]; rewrite ?andb_true_iff; intros Hb k out Hk.
  - cbn [b64url_encode map app]. rewrite a2b_loop_pads_at_0.
    now rewrite app_nil_r.
  - destruct Hb as [H1 _]. apply byte_bounds in H1.
    cbn [required_pads] in Hk.
    destruct k as [|[|k]]; [lia | lia |].
    cbn [b64url_encode map app repeat]. sextets.
    pose proof (first_byte b1 0 H1 ltac:(lia)) as E.
    change (0 / 16) with 0 in E. rewrite N.add_0_r in E.
    cbn [a2b_loop]. cbn [N.eqb BASE64_PAD chr N_of_ascii].
    rewrite E. reflexivity.
  - destruct Hb as (H1 & H2 & _). apply byte_bounds in H1, H2.
    cbn [required_pads] in Hk. destruct k as [|k]; [lia|].
    cbn [b64url_encode map app repeat]. sextets.
    rewrite (first_byte b1 b2 H1 H2).
    destruct (later_bytes b1 b2 H1 H2) as (E1 & _).
    destruct (later_bytes b2 0 H2 ltac:(lia)) as (_ & E2 & _).
    change (0 / 64) with 0 in E2. rewrite N.add_0_r in E2.
    cbn [a2b_loop]. cbn [N.eqb BASE64_PAD chr N_of_ascii].
    rewrite E1, E2. cbn. now rewrite <- app_assoc.
  - destruct Hb as (H1 & H2 & H3 & Hrest).
    apply byte_bounds in H1, H2, H3.
    cbn [b64url_encode map app]. rewrite a2b_loop_group by assumption.
    rewrite (IH Hrest k _ Hk). now rewrite <- app_assoc.
Qed.

Ltac decide_tests :=
  repeat match goal with
  | |- context [?a <? ?b] => destruct (N.ltb_spec a b); try lia
  | |- context [?a <=? ?b] => destruct (N.leb_spec a b); try lia
  | |- context [?a =? ?b] => destruct (N.eqb_spec a b); try lia
  end.

Lemma urlsafe_alphabet_ascii (v : N) : (urlsafe_alphabet v <? 128) = true.
Proof.
  apply N.ltb_lt. unfold urlsafe_alphabet.
  change (chr "A") with 65. change (chr "a") with 97.
  change (chr "0") with 48. change (chr "-") with 45.
  change (chr "_") with 95.
  decide_tests; lia.
Qed.

Lemma b64url_encode_ascii (b : pybytes) :
  forallb (fun c => c <? 128) (b64url_encode b) = true.
Proof.
  induction b as [|b1|b1 b2|b1 b2 b3 rest IH] using list_ind3;
    cbn [b64url_encode forallb]; rewrite ?urlsafe_alphabet_ascii;
    [reflexivity | reflexivity | reflexivity | exact IH].
Qed.

(** The unpadded encoding and the pads it needs fill whole groups of four. *)
Lemma b64url_encode_length (b : pybytes) :
  ((len (b64url_encode b) + Z.of_nat (required_pads b)) mod 4 = 0)%Z
  /\ (required_pads b <= 2)%nat.
Proof.
  unfold len.
  induction b as [|b1|b1 b2|b1 b2 b3 rest IH] using list_ind3;
    cbn [b64url_encode required_pads length]; try (split; [reflexivity | lia]).
  destruct IH as [IH1 IH2]. split; [lia | exact IH2].
Qed.

Lemma forallb_repeat {A} (f : A -> bool) (a : A) (k : nat) :
  f a = true -> forallb f (repeat a k) = true.
Proof. intros H. induction k as [|k IH]; cbn; [reflexivity | now rewrite H]. Qed.

(** Decoding what [pad_base64] makes of an encoded byte string, with or
    without pad characters of its own, gives the bytes back: the pads the
    script adds beyond need are ignored by the decoder. *)
Lemma urlsafe_b64decode_pad_encode (b : pybytes) (k : nat) :
  forallb is_byte b = true ->
  urlsafe_b64decode (pad_base64 (b64url_encode b ++ repeat (chr "=") k)) = inr b.
Proof.
  intros Hb. rewrite pad_base64_repeat, <- app_assoc, <- repeat_app.
  set (total := (k + _)%nat).
  assert (Htotal : (required_pads b <= total)%nat).
  { subst total. unfold pad_count. rewrite len_app, len_repeat.
    destruct (b64url_encode_length b) as [H1 H2].
    pose proof (len_nonneg (b64url_encode b)). lia. }
  unfold urlsafe_b64decode, bytes_from_decode_data.
  rewrite forallb_app, b64url_encode_ascii, forallb_repeat by reflexivity.
  cbn [andb]. unfold b64decode, a2b_base64.
  rewrite map_app, map_repeat.
  change (tr (chr "=")) with BASE64_PAD.
  now rewrite (a2b_loop_encode b Hb total [] Htotal).
Qed.

(** ** UTF-8: decoding what was encoded *)

Lemma shiftl_6 (n : N) : N.shiftl n 6 = n * 64.
Proof. now rewrite N.shiftl_mul_pow2. Qed.

Lemma shiftl_12 (n : N) : N.shiftl n 12 = n * 4096.
Proof. now rewrite N.shiftl_mul_pow2. Qed.

Lemma shiftl_18 (n : N) : N.shiftl n 18 = n * 262144.
Proof. now rewrite N.shiftl_mul_pow2. Qed.

Lemma scalar_value_range (c : N) :
  is_scalar_value c = true -> c < 55296 \/ (57344 <= c /\ c < 1114112).
Proof.
  unfold is_scalar_value. intros H.
  apply orb_true_iff in H. destruct H as [H|H].
  - left. now apply N.ltb_lt.
  - right. apply andb_true_iff in H. destruct H as [H1 H2].
    apply N.leb_le in H1. apply N.ltb_lt in H2. lia.
Qed.

Lemma utf8_decode_encode_char (c : N) (rest : pybytes) (pos : nat) (acc : pystr) :
  is_scalar_value c = true ->
  utf8_decode (utf8_encode_char c ++ rest) pos acc =
  utf8_decode rest (pos + List.length (utf8_encode_char c)) (acc ++ [c]).
Proof.
  intros H. apply scalar_value_range in H. unfold utf8_encode_char.
  destruct (N.ltb_spec c 128).
  { cbn [app utf8_decode List.length]. decide_tests. reflexivity. }
  destruct (N.ltb_spec c 2048).
  { cbn [app utf8_decode List.length]. unfold is_continuation_byte.
    rewrite !shiftl_6. decide_tests. cbn [andb negb].
    do 2 f_equal. f_equal. lia. }
  destruct (N.ltb_spec c 65536).
  { cbn [app utf8_decode List.length]. unfold is_continuation_byte.
    rewrite !shiftl_6, !shiftl_12. decide_tests; cbn [andb negb orb];
    do 2 f_equal; f_equal; lia. }
  cbn [app utf8_decode List.length]. unfold is_continuation_byte.
  rewrite !shiftl_6, !shiftl_12, !shiftl_18. decide_tests; cbn [andb negb orb];
  do 2 f_equal; f_equal; lia.
Qed.

Lemma utf8_decode_encode (s : pystr) :
  forallb is_scalar_value s = true ->
  forall (pos : nat) (acc : pystr),
  utf8_decode (utf8_encode s) pos acc = inr (acc ++ s).
Proof.
  unfold utf8_encode.
  induction s as [|c s IH]; cbn [forallb flat_map]; intros H pos acc.
  - cbn. now rewrite app_nil_r.
  - apply andb_true_iff in H. destruct H as [Hc Hs].
    rewrite utf8_decode_encode_char by exact Hc.
    rewrite (IH Hs). now rewrite <- app_assoc.
Qed.

(** [decode('utf-8')] gives back the text that was encoded. *)
Lemma decode_utf8_encode (s : pystr) :
  forallb is_scalar_value s = true -> decode_utf8 (utf8_encode s) = inr s.
Proof.
  intros H. unfold decode_utf8. now rewrite (utf8_decode_encode s H).
Qed.

Lemma utf8_encode_char_bytes (c : N) :
  is_scalar_value c = true -> forallb is_byte (utf8_encode_char c) = true.
Proof.
  intros H. apply scalar_value_range in H.
  unfold utf8_encode_char, is_byte.
  decide_tests; cbn [forallb]; decide_tests; reflexivity.
Qed.

Lemma utf8_encode_bytes (s : pystr) :
  forallb is_scalar_value s = true -> forallb is_byte (utf8_encode s) = true.
Proof.
  unfold utf8_encode.
  induction s as [|c s IH]; cbn [forallb flat_map]; intros H; [reflexivity|].
  apply andb_true_iff in H. destruct H as [Hc Hs].
  rewrite forallb_app, utf8_encode_char_bytes, IH by assumption. reflexivity.
Qed.

(** ** Segments that carry a text *)

(** On the base64url encoding of the UTF-8 encoding of [text], unpadded or
    followed by pad characters, the steps of [decode_jwt_part] come down to
    [json.loads(text)]. *)
Lemma try_decode_encoded (text : pystr) (k : nat) :
  forallb is_scalar_value text = true ->
  try_decode (encode_segment text ++ repeat (chr "=") k) = json_loads text.
Proof.
  intros H. unfold try_decode, encode_segment.
  rewrite urlsafe_b64decode_pad_encode by now apply utf8_encode_bytes.
  now rewrite decode_utf8_encode.
Qed.


(** ** The layout of the encoder's output *)

Section Layout.

Variable floatstr : pystr -> pystr.

(** A new line is followed by two spaces for each level of nesting. *)
Lemma newline_indent_spaces (level : nat) :
  newline_indent level = 10 :: repeat (chr " ") (2 * level).
Proof.
  unfold newline_indent, str_mul. rewrite Nat2Z.id. f_equal.
  induction level as [|n IH]; [reflexivity|].
  cbn [repeat concat]. rewrite IH.
  replace (2 * S n)%nat with (S (S (2 * n))) by lia. reflexivity.
Qed.

Lemma join_cons (sep : pystr) (f : pyobj -> pystr) (x : pyobj) (l : list pyobj) :
  f x ++ flat_map (fun v => sep ++ f v) l = join sep (map f (x :: l)).
Proof.
  revert x. induction l as [|y l IH]; intros x; cbn [flat_map map join].
  - apply app_nil_r.
  - f_equal. rewrite <- app_assoc. f_equal. apply IH.
Qed.

Lemma join_cons_items (sep : pystr) (f : pystr * pyobj -> pystr)
      (x : pystr * pyobj) (l : list (pystr * pyobj)) :
  f x ++ flat_map (fun kv => sep ++ f kv) l = join sep (map f (x :: l)).
Proof.
  revert x. induction l as [|y l IH]; intros x; cbn [flat_map map join].
  - apply app_nil_r.
  - f_equal. rewrite <- app_assoc. f_equal. apply IH.
Qed.

(** A non-empty list: an opening bracket, each item on a line of its own
    one level deeper, the items separated by a comma, and the closing
    bracket on a line of its own at the level of the list. *)
Lemma iterencode_list (value : pyobj) (lst : list pyobj) (level : nat) :
  iterencode floatstr (PyList (value :: lst)) level =
    str "[" ++ newline_indent (S level)
    ++ join (str "," ++ newline_indent (S level))
            (map (fun v => iterencode floatstr v (S level)) (value :: lst))
    ++ newline_indent level ++ str "]".
Proof.
  cbn [iterencode]. do 2 f_equal.
  rewrite <- join_cons, <- app_assoc. do 2 f_equal.
  induction lst as [|v l IH]; [reflexivity|].
  cbn [flat_map]. rewrite <- IH, <- !app_assoc. reflexivity.
Qed.

(** A non-empty dict: the same layout, each item being the key as a JSON
    string, a colon and a space, and the value. *)
Lemma iterencode_dict (item : pystr * pyobj) (dct : list (pystr * pyobj))
      (level : nat) :
  iterencode floatstr (PyDict (item :: dct)) level =
    str "{" ++ newline_indent (S level)
    ++ join (str "," ++ newline_indent (S level))
            (map (fun kv => encode_basestring_ascii (fst kv) ++ str ": "
                            ++ iterencode floatstr (snd kv) (S level))
                 (item :: dct))
    ++ newline_indent level ++ str "}".
Proof.
  destruct item as [key value]. cbn [iterencode]. do 2 f_equal.
  rewrite <- join_cons_items. cbn [fst snd]. rewrite <- !app_assoc.
  do 4 f_equal.
  induction dct as [|[k v] l IH]; [reflexivity|].
  cbn [flat_map fst snd]. rewrite <- IH, <- !app_assoc. reflexivity.
Qed.

(** A string is written as a JSON string literal. *)
Lemma json_dumps_str (s : pystr) :
  json_dumps floatstr (PyStr s) = quoted (flat_map escape_ascii s).
Proof. reflexivity. Qed.

(** The string [decode_jwt_part] returns for a failure is written with
    its prefix as it is and its cause escaped, between double quotes. *)
Lemma json_dumps_error (e : exn) :
  json_dumps floatstr (PyStr (str "Error decoding: " ++ exn_str e))
  = inline_error e.
Proof.
  rewrite json_dumps_str. unfold inline_error. now rewrite flat_map_app.
Qed.

Lemma rendered_segment (encoded_part : pystr) :
  json_dumps floatstr (decode_jwt_part encoded_part)
  = render_decoded floatstr (try_decode encoded_part).
Proof.
  unfold decode_jwt_part, render_decoded.
  destruct (try_decode encoded_part) as [e|v]; [apply json_dumps_error|].
  reflexivity.
Qed.

(** The inline form is not the error string itself: it opens with a
    double quote. *)
Lemma inline_error_not_raw (e : exn) :
  inline_error e <> str "Error decoding: " ++ exn_str e.
Proof. unfold inline_error, quoted. discriminate. Qed.

End Layout.

(** ** Rendering of the decoded values *)

(** C2, as the script has it.  In the report of a token of three segments
    each of the header and payload sections is the text of
    [json.dumps(value, indent=2)] on what [decode_jwt_part] returned: a JSON
    value is laid out with two spaces for each level of nesting, every item
    of a list or dict on a line of its own; an error string goes through
    the same encoder and is written as a JSON string literal, between
    double quotes and with its cause escaped, not as the string itself. *)
Theorem decoded_values_go_through_json_dumps
  (floatstr : pystr -> pystr) (stdin header payload signature : pystr) :
  split (strip stdin) (chr ".") = [header; payload; signature] ->
  output floatstr stdin =
    report (render_decoded floatstr (try_decode header))
           (render_decoded floatstr (try_decode payload))
           signature
  /\ (forall e, render_decoded floatstr (inl e)
                = quoted (str "Error decoding: "
                          ++ flat_map escape_ascii (exn_str e))
                /\ render_decoded floatstr (inl e)
                   <> str "Error decoding: " ++ exn_str e)
  /\ (forall value, render_decoded floatstr (inr value)
                    = json_dumps floatstr value)
  /\ (forall level, newline_indent level
                    = 10 :: repeat (chr " ") (2 * level))
  /\ (forall value lst level,
        iterencode floatstr (PyList (value :: lst)) level =
          str "[" ++ newline_indent (S level)
          ++ join (str "," ++ newline_indent (S level))
                  (map (fun v => iterencode floatstr v (S level))
                       (value :: lst))
          ++ newline_indent level ++ str "]")
  /\ (forall item dct level,
        iterencode floatstr (PyDict (item :: dct)) level =
          str "{" ++ newline_indent (S level)
          ++ join (str "," ++ newline_indent (S level))
                  (map (fun kv => encode_basestring_ascii (fst kv) ++ str ": "
                                  ++ iterencode floatstr (snd kv) (S level))
                       (item :: dct))
          ++ newline_indent level ++ str "}").
Proof.
  intros H. split.
  - unfold output.
    rewrite (main_three_parts floatstr stdin header payload signature H).
    cbn [snd stdout]. now rewrite !rendered_segment.
  - split; [intros e; split; [reflexivity | apply inline_error_not_raw]|].
    split; [reflexivity|].
    split; [apply newline_indent_spaces|].
    split; [apply iterencode_list | apply iterencode_dict].
Qed.

Lemma decoded_values_go_through_json_dumps_witness :
  output floatstr_literal (str "..") =
    report (quoted empty_segment_error) (quoted empty_segment_error) [].
Proof.
  destruct (decoded_values_go_through_json_dumps floatstr_literal
              (str "..") [] [] []) as (H & _); [reflexivity|].
  rewrite H. vm_compute. reflexivity.
Defined.

(** C2, as it is worded, fails on the input [..]: decoding the empty header
    returns the error string [empty_segment_error], and the report does not
    carry that string as it is (it carries it between double quotes). *)
Lemma error_string_not_printed_as_is :
  decode_jwt_part [] = PyStr empty_segment_error
  /\ output floatstr_literal (str "..")
     <> report empty_segment_error empty_segment_error []
  /\ output floatstr_literal (str "..")
     = report (quoted empty_segment_error) (quoted empty_segment_error) [].
Proof.
  split; [vm_compute; reflexivity|].
  split; [vm_compute; discriminate | vm_compute; reflexivity].
Qed.

(** ** Independence of the two segments *)

(** C8.  In the report of a token of three segments the header section
    depends on the header segment alone and the payload section on the
    payload segment alone: when the decoding steps fail on one segment and
    succeed on the other, the failed one is shown as the inline string
    [Error decoding: <cause>] (a JSON string literal) in its own section and
    the other one as its JSON value; when both fail, both are shown
    inline. *)
Theorem segments_decoded_independently
  (floatstr : pystr -> pystr) (stdin header payload signature : pystr) :
  split (strip stdin) (chr ".") = [header; payload; signature] ->
  (forall e value,
      try_decode header = inl e -> try_decode payload = inr value ->
      output floatstr stdin =
        report (quoted (str "Error decoding: "
                        ++ flat_map escape_ascii (exn_str e)))
               (json_dumps floatstr value) signature)
  /\ (forall value e,
      try_decode header = inr value -> try_decode payload = inl e ->
      output floatstr stdin =
        report (json_dumps floatstr value)
               (quoted (str "Error decoding: "
                        ++ flat_map escape_ascii (exn_str e)))
               signature)
  /\ (forall e1 e2,
      try_decode header = inl e1 -> try_decode payload = inl e2 ->
      output floatstr stdin =
        report (quoted (str "Error decoding: "
                        ++ flat_map escape_ascii (exn_str e1)))
               (quoted (str "Error decoding: "
                        ++ flat_map escape_ascii (exn_str e2)))
               signature)
  /\ exit_code floatstr stdin = 0%Z.
Proof.
  intros H.
  assert (O : output floatstr stdin =
              report (render_decoded floatstr (try_decode header))
                     (render_decoded floatstr (try_decode payload))
                     signature).
  { unfold output.
    rewrite (main_three_parts floatstr stdin header payload signature H).
    cbn [snd stdout]. now rewrite !rendered_segment. }
  repeat split.
  - intros e value Hh Hp. now rewrite O, Hh, Hp.
  - intros value e Hh Hp. now rewrite O, Hh, Hp.
  - intros e1 e2 Hh Hp. now rewrite O, Hh, Hp.
  - unfold exit_code.
    now rewrite (main_three_parts floatstr stdin header payload signature H).
Qed.

Lemma segments_decoded_independently_witness :
  output floatstr_literal (str "_w.eyJzdWIiOiIxMjMifQ.sig") =
    report
      (quoted (str "Error decoding: 'utf-8' codec can't decode byte 0xff in position 0: invalid start byte"))
      (json_dumps floatstr_literal (PyDict [(str "sub", PyStr (str "123"))]))
      (str "sig").
Proof.
  destruct (segments_decoded_independently floatstr_literal
              (str "_w.eyJzdWIiOiIxMjMifQ.sig")
              (str "_w") (str "eyJzdWIiOiIxMjMifQ") (str "sig"))
    as (H & _); [reflexivity|].
  apply (H (UnicodeDecodeError (str "utf-8") [255] 0 1
              (str "invalid start byte"))
           (PyDict [(str "sub", PyStr (str "123"))]));
    vm_compute; reflexivity.
Defined.

(** ** Valid tokens *)



(** ** The scanner of [json.loads]: progress and fuel

    Every scanning function leaves less than it was given, so the fuel
    [scan_fuel] is never used up: the [RecursionError] of [decode] is not a
    result of [json_loads], and no step of [decode_jwt_part] fails with
    it. *)

Lemma skip_whitespace_length (s : pystr) (idx : nat) :
  (List.length (fst (skip_whitespace s idx)) <= List.length s)%nat.
Proof.
  revert idx. induction s as [|c s IH]; intros idx; cbn [skip_whitespace].
  - cbn. lia.
  - destruct (IS_WHITESPACE c); cbn [fst length]; [|lia].
    specialize (IH (idx + 1)%nat). lia.
Qed.

Ltac break_match :=
  match goal with
  | |- context [if ?b then _ else _] => destruct b
  | |- context [match ?x with _ => _ end] => destruct x eqn:?
  end.

Lemma scanstring_loop_length (doc : pystr) (begin : nat) (n : nat) :
  forall (s : pystr) (idx : nat) (chunks v r : pystr) (i : nat),
  (List.length s <= n)%nat ->
  scanstring_loop doc begin s idx chunks = Scanned v r i ->
  (List.length r < List.length s)%nat.
Proof.
  induction n as [|n IH]; intros s idx chunks v r i Hn.
  - destruct s; [|cbn in Hn; lia]. cbn. discriminate.
  - destruct s as [|d s1]; [cbn; discriminate|].
    cbn [scanstring_loop].
    repeat break_match; try discriminate;
      try (intros [= <- <- <-]; cbn [length]; lia);
      intros E; apply IH in E; cbn [length] in *; lia.
Qed.

Lemma scanstring_loop_fuel (doc : pystr) (begin : nat) (s : pystr) :
  forall (idx : nat) (chunks : pystr),
  scanstring_loop doc begin s idx chunks <> OutOfFuel.
Proof.
  remember (List.length s) as n eqn:Hn. revert s Hn.
  induction n as [n IH] using lt_wf_ind. intros s Hn idx chunks.
  destruct s as [|d s1]; [cbn; discriminate|].
  cbn [scanstring_loop].
  repeat break_match; try discriminate;
    (eapply IH; [|reflexivity]; subst; cbn [length]; lia).
Qed.

Lemma span_digits_length (s : pystr) :
  (List.length (snd (span_digits s)) <= List.length s)%nat.
Proof.
  induction s as [|c s IH]; cbn [span_digits]; [cbn; lia|].
  destruct (is_digit c); [|cbn; lia].
  destruct (span_digits s) as [ds r]. cbn [snd length] in *. lia.
Qed.

Lemma span_digits_rest (s ds r : pystr) :
  span_digits s = (ds, r) -> (List.length r <= List.length s)%nat.
Proof. intros H. pose proof (span_digits_length s) as L. now rewrite H in L. Qed.


Lemma scan_sign_length (s : pystr) :
  (List.length (snd (scan_sign s)) <= List.length s)%nat.
Proof.
  destruct s as [|c s]; cbn [scan_sign]; [cbn; lia|].
  destruct (c =? chr "-"); cbn [snd length]; lia.
Qed.

Lemma scan_integer_length (s integer r : pystr) :
  scan_integer s = Some (integer, r) -> (List.length r < List.length s)%nat.
Proof.
  destruct s as [|c s]; cbn [scan_integer]; [discriminate|].
  destruct ((chr "1" <=? c) && (c <=? chr "9")).
  - destruct (span_digits s) as [ds r'] eqn:E. intros [= _ <-].
    apply span_digits_rest in E. cbn [length]. lia.
  - destruct (c =? chr "0"); [|discriminate].
    intros [= _ <-]. cbn [length]. lia.
Qed.

Lemma scan_fraction_length (s : pystr) :
  (List.length (snd (scan_fraction s)) <= List.length s)%nat.
Proof.
  destruct s as [|p [|f r]]; cbn [scan_fraction snd]; try lia.
  destruct ((p =? chr ".") && is_digit f); cbn [snd]; [|lia].
  destruct (span_digits r) as [ds r'] eqn:E.
  apply span_digits_rest in E. cbn [snd length]. lia.
Qed.

Lemma scan_exponent_length (s : pystr) :
  (List.length (snd (scan_exponent s)) <= List.length s)%nat.
Proof.
  destruct s as [|e r]; cbn [scan_exponent snd]; [lia|].
  destruct ((e =? chr "e") || (e =? chr "E")); cbn [snd]; [|lia].
  assert (H : forall (sg r' whole : pystr),
            (List.length r' <= List.length whole)%nat ->
            (List.length (snd (let (ds, r'') := span_digits r' in
                               match ds with
                               | [] => ([], whole)
                               | _ :: _ => (e :: sg ++ ds, r'')
                               end)) <= List.length whole)%nat).
  { intros sg r' whole Hr. destruct (span_digits r') as [[|d ds] r''] eqn:E;
      cbn [snd length]; [lia|].
    apply span_digits_rest in E. lia. }
  destruct r as [|g [|g' r'']]; try (apply H; cbn [length]; lia).
  destruct ((g =? chr "-") || (g =? chr "+")); apply H; cbn [length]; lia.
Qed.

Lemma match_number_length (s : pystr) (start : nat) (v : pyobj) (r : pystr) (i : nat) :
  match_number s start = Scanned v r i -> (List.length r < List.length s)%nat.
Proof.
  unfold match_number.
  pose proof (scan_sign_length s) as H0.
  destruct (scan_sign s) as [neg s0]. cbn [snd] in H0.
  destruct (scan_integer s0) as [[integer r1]|] eqn:E1; [|discriminate].
  apply scan_integer_length in E1.
  pose proof (scan_fraction_length r1) as H2.
  destruct (scan_fraction r1) as [frac r2]. cbn [snd] in H2.
  pose proof (scan_exponent_length r2) as H3.
  destruct (scan_exponent r2) as [exp r3]. cbn [snd] in H3.
  destruct frac, exp; try (intros [= _ <- _]; lia).
  destruct (PyLong_FromString neg integer); [discriminate|].
  intros [= _ <- _]. lia.
Qed.

Lemma match_number_fuel (s : pystr) (start : nat) :
  match_number s start <> OutOfFuel.
Proof.
  unfold match_number.
  destruct (scan_sign s) as [neg s0].
  destruct (scan_integer s0) as [[integer r1]|]; [|discriminate].
  destruct (scan_fraction r1) as [frac r2].
  destruct (scan_exponent r2) as [exp r3].
  destruct frac, exp; try discriminate.
  destruct (PyLong_FromString neg integer); discriminate.
Qed.

Lemma after_prefix_length (w s r : pystr) :
  after_prefix w s = Some r ->
  (List.length r + List.length w = List.length s)%nat.
Proof.
  revert s. induction w as [|a w IH]; intros s; cbn [after_prefix].
  - intros [= <-]. cbn. lia.
  - destruct s as [|c s]; [discriminate|].
    destruct (a =? c); [|discriminate].
    intros H. apply IH in H. cbn [length]. lia.
Qed.

(** A constant, or else a number: the two ways [scan_once] reads a value
    that is neither a string nor a container. *)
Lemma constant_or_number_length (w : string) (c : pyobj) (s : pystr) (idx : nat)
      (v : pyobj) (r : pystr) (i : nat) :
  w <> EmptyString ->
  match constant w c s idx with
  | Some k => k
  | None => match_number s idx
  end = Scanned v r i ->
  (List.length r < List.length s)%nat.
Proof.
  intros Hw. unfold constant.
  destruct (after_prefix (str w) s) as [r'|] eqn:E.
  - intros [= _ <- _]. apply after_prefix_length in E.
    destruct w; [congruence|]. cbn [str list_ascii_of_string map length] in E.
    lia.
  - apply match_number_length.
Qed.

Lemma constant_or_number_fuel (w : string) (c : pyobj) (s : pystr) (idx : nat) :
  match constant w c s idx with
  | Some k => k
  | None => match_number s idx
  end <> OutOfFuel.
Proof.
  unfold constant. destruct (after_prefix (str w) s); [discriminate|].
  apply match_number_fuel.
Qed.

Tactic Notation "skip_ws_bound" ident(s') ident(i') :=
  match goal with
  | |- context [skip_whitespace ?s ?i] =>
      let H := fresh "Hws" in
      pose proof (skip_whitespace_length s i) as H;
      destruct (skip_whitespace s i) as [s' i']; cbn [fst] in H
  end.

Lemma scanstring_length (doc s : pystr) (idx : nat) (v r : pystr) (i : nat) :
  scanstring doc s idx = Scanned v r i -> (List.length r < List.length s)%nat.
Proof.
  unfold scanstring. intros H.
  now apply (scanstring_loop_length _ _ (List.length s)) in H.
Qed.

Lemma scanstring_fuel (doc s : pystr) (idx : nat) :
  scanstring doc s idx <> OutOfFuel.
Proof. apply scanstring_loop_fuel. Qed.

(** What a scanning function leaves is shorter than what it was given. *)
Lemma scan_length (fuel : nat) (doc : pystr) :
  forall (depth : nat) (s : pystr) (idx : nat),
  (forall v r i, scan_once fuel depth doc s idx = Scanned v r i ->
                 (List.length r < List.length s)%nat)
  /\ (forall rval v r i,
        parse_array_loop fuel depth doc s idx rval = Scanned v r i ->
        (List.length r < List.length s)%nat)
  /\ (forall rval v r i,
        parse_object_loop fuel depth doc s idx rval = Scanned v r i ->
        (List.length r < List.length s)%nat).
Proof.
  induction fuel as [|fuel IH]; intros depth s idx.
  { repeat split; intros; discriminate. }
  split; [|split].
  - intros v r i. cbn [scan_once].
    destruct s as [|c s1]; [discriminate|].
    destruct (c =? dquote).
    { destruct (scanstring doc s1 (idx + 1)) as [v' r' i'| | |] eqn:E;
        try discriminate.
      intros [= _ <- _]. apply scanstring_length in E. cbn [length]. lia. }
    destruct (c =? chr "{").
    { destruct depth as [|depth']; [discriminate|].
      skip_ws_bound s2 i2. destruct s2 as [|c2 s3].
      - intros H. apply IH in H. cbn [length] in *. lia.
      - destruct (c2 =? chr "}").
        + intros [= _ <- _]. cbn [length] in *. lia.
        + intros H. apply IH in H. cbn [length] in *. lia. }
    destruct (c =? chr "[").
    { destruct depth as [|depth']; [discriminate|].
      skip_ws_bound s2 i2. destruct s2 as [|c2 s3].
      - intros H. apply IH in H. cbn [length] in *. lia.
      - destruct (c2 =? chr "]").
        + intros [= _ <- _]. cbn [length] in *. lia.
        + intros H. apply IH in H. cbn [length] in *. lia. }
    repeat match goal with
    | |- context [if ?b then _ else _] =>
        destruct b; [apply constant_or_number_length; discriminate|]
    end.
    apply match_number_length.
  - intros rval v r i. cbn [parse_array_loop].
    destruct (scan_once fuel depth doc s idx) as [val s1 i1| | |] eqn:E;
      try discriminate.
    apply IH in E. skip_ws_bound s2 i2.
    destruct s2 as [|c s3]; [discriminate|].
    destruct (c =? chr "]").
    { intros [= _ <- _]. cbn [length] in *. lia. }
    destruct (c =? chr ","); [|discriminate].
    skip_ws_bound s4 i4. intros H. apply IH in H. cbn [length] in *. lia.
  - intros rval v r i. cbn [parse_object_loop].
    destruct s as [|q s1]; [discriminate|].
    destruct (q =? dquote); cbn [negb]; [|discriminate].
    destruct (scanstring doc s1 (idx + 1)) as [key s2 i2| | |] eqn:E;
      try discriminate.
    apply scanstring_length in E. skip_ws_bound s3 i3.
    destruct s3 as [|c s4]; [discriminate|].
    destruct (c =? chr ":"); cbn [negb]; [|discriminate].
    skip_ws_bound s5 i5.
    destruct (scan_once fuel depth doc s5 i5) as [val s6 i6| | |] eqn:E2;
      try discriminate.
    apply IH in E2. skip_ws_bound s7 i7.
    destruct s7 as [|c' s8]; [discriminate|].
    destruct (c' =? chr "}").
    { intros [= _ <- _]. cbn [length] in *. lia. }
    destruct (c' =? chr ","); [|discriminate].
    skip_ws_bound s9 i9. intros H. apply IH in H. cbn [length] in *. lia.
Qed.

(** With two units of fuel for each character left, and one more, no
    scanning function runs out of fuel. *)
Lemma scan_fuel_enough (fuel : nat) (doc : pystr) :
  forall (depth : nat) (s : pystr) (idx : nat),
  ((2 * List.length s + 1 <= fuel)%nat ->
   scan_once fuel depth doc s idx <> OutOfFuel)
  /\ (forall rval, (2 * List.length s + 2 <= fuel)%nat ->
        parse_array_loop fuel depth doc s idx rval <> OutOfFuel)
  /\ (forall rval, (2 * List.length s + 2 <= fuel)%nat ->
        parse_object_loop fuel depth doc s idx rval <> OutOfFuel).
Proof.
  induction fuel as [|fuel IH]; intros depth s idx.
  { repeat split; intros; lia. }
  split; [|split].
  - intros Hf. cbn [scan_once].
    destruct s as [|c s1]; [discriminate|]. cbn [length] in Hf.
    destruct (c =? dquote).
    { pose proof (scanstring_fuel doc s1 (idx + 1)) as H.
      destruct (scanstring doc s1 (idx + 1)); congruence. }
    destruct (c =? chr "{").
    { destruct depth as [|depth']; [discriminate|].
      skip_ws_bound s2 i2. destruct s2 as [|c2 s3].
      - apply IH. cbn [length]. lia.
      - destruct (c2 =? chr "}"); [discriminate|].
        apply IH. cbn [length] in *. lia. }
    destruct (c =? chr "[").
    { destruct depth as [|depth']; [discriminate|].
      skip_ws_bound s2 i2. destruct s2 as [|c2 s3].
      - apply IH. cbn [length]. lia.
      - destruct (c2 =? chr "]"); [discriminate|].
        apply IH. cbn [length] in *. lia. }
    repeat match goal with
    | |- context [if ?b then _ else _] =>
        destruct b; [apply constant_or_number_fuel|]
    end.
    apply match_number_fuel.
  - intros rval Hf. cbn [parse_array_loop].
    destruct (scan_once fuel depth doc s idx) as [val s1 i1| | |] eqn:E;
      try discriminate.
    + apply (scan_length fuel doc depth s idx) in E. skip_ws_bound s2 i2.
      destruct s2 as [|c s3]; [discriminate|].
      destruct (c =? chr "]"); [discriminate|].
      destruct (c =? chr ","); [|discriminate].
      skip_ws_bound s4 i4. apply IH. cbn [length] in *. lia.
    + exfalso. revert E. apply IH. lia.
  - intros rval Hf. cbn [parse_object_loop].
    destruct s as [|q s1]; [discriminate|]. cbn [length] in Hf.
    destruct (q =? dquote); cbn [negb]; [|discriminate].
    pose proof (scanstring_fuel doc s1 (idx + 1)) as Hs.
    destruct (scanstring doc s1 (idx + 1)) as [key s2 i2| | |] eqn:E;
      try discriminate; [|congruence].
    apply scanstring_length in E. skip_ws_bound s3 i3.
    destruct s3 as [|c s4]; [discriminate|].
    destruct (c =? chr ":"); cbn [negb]; [|discriminate].
    skip_ws_bound s5 i5. cbn [length] in *.
    destruct (scan_once fuel depth doc s5 i5) as [val s6 i6| | |] eqn:E2;
      try discriminate.
    + apply (scan_length fuel doc depth s5 i5) in E2. skip_ws_bound s7 i7.
      destruct s7 as [|c' s8]; [discriminate|].
      destruct (c' =? chr "}"); [discriminate|].
      destruct (c' =? chr ","); [|discriminate].
      skip_ws_bound s9 i9. apply IH. cbn [length] in *. lia.
    + exfalso. revert E2. apply IH. lia.
Qed.

Lemma scanstring_loop_raises (doc : pystr) (begin : nat) (s : pystr) :
  forall (idx : nat) (chunks : pystr) (e : exn),
  scanstring_loop doc begin s idx chunks = Raise e ->
  is_out_of_fuel e = false.
Proof.
  remember (List.length s) as n eqn:Hn. revert s Hn.
  induction n as [n IH] using lt_wf_ind. intros s Hn idx chunks e.
  destruct s as [|d s1]; [cbn; now intros [= <-]|].
  cbn [scanstring_loop].
  repeat break_match; try discriminate; try (now intros [= <-]);
    (eapply IH; [|reflexivity]; subst; cbn [length]; lia).
Qed.

Lemma match_number_raises (s : pystr) (start : nat) (e : exn) :
  match_number s start = Raise e -> is_out_of_fuel e = false.
Proof.
  unfold match_number.
  destruct (scan_sign s) as [neg s0].
  destruct (scan_integer s0) as [[integer r1]|]; [|discriminate].
  destruct (scan_fraction r1) as [frac r2].
  destruct (scan_exponent r2) as [exp r3].
  destruct frac, exp; try discriminate.
  unfold PyLong_FromString.
  destruct (Nat.ltb int_max_str_digits (List.length integer));
    [now intros [= <-] | discriminate].
Qed.

Lemma constant_or_number_raises (w : string) (c : pyobj) (s : pystr) (idx : nat)
      (e : exn) :
  match constant w c s idx with
  | Some k => k
  | None => match_number s idx
  end = Raise e -> is_out_of_fuel e = false.
Proof.
  unfold constant. destruct (after_prefix (str w) s); [discriminate|].
  apply match_number_raises.
Qed.

(** No scanning function raises the error that stands for running out of
    fuel. *)
Lemma scan_raises (fuel : nat) (doc : pystr) :
  forall (depth : nat) (s : pystr) (idx : nat) (e : exn),
  (scan_once fuel depth doc s idx = Raise e -> is_out_of_fuel e = false)
  /\ (forall rval, parse_array_loop fuel depth doc s idx rval = Raise e ->
                   is_out_of_fuel e = false)
  /\ (forall rval, parse_object_loop fuel depth doc s idx rval = Raise e ->
                   is_out_of_fuel e = false).
Proof.
  induction fuel as [|fuel IH]; intros depth s idx e.
  { repeat split; intros; discriminate. }
  split; [|split].
  - cbn [scan_once].
    destruct s as [|c s1]; [discriminate|].
    destruct (c =? dquote).
    { destruct (scanstring doc s1 (idx + 1)) eqn:E; try discriminate.
      intros [= <-]. now apply scanstring_loop_raises in E. }
    destruct (c =? chr "{").
    { destruct depth as [|depth']; [intros [= <-]; reflexivity|].
      destruct (skip_whitespace s1 (idx + 1)) as [s2 i2].
      destruct s2 as [|c2 s3]; [apply IH|].
      destruct (c2 =? chr "}"); [discriminate | apply IH]. }
    destruct (c =? chr "[").
    { destruct depth as [|depth']; [intros [= <-]; reflexivity|].
      destruct (skip_whitespace s1 (idx + 1)) as [s2 i2].
      destruct s2 as [|c2 s3]; [apply IH|].
      destruct (c2 =? chr "]"); [discriminate | apply IH]. }
    repeat match goal with
    | |- context [if ?b then _ else _] =>
        destruct b; [apply constant_or_number_raises|]
    end.
    apply match_number_raises.
  - intros rval. cbn [parse_array_loop].
    destruct (scan_once fuel depth doc s idx) as [val s1 i1| | |] eqn:E;
      try discriminate.
    + destruct (skip_whitespace s1 i1) as [s2 i2].
      destruct s2 as [|c s3]; [now intros [= <-]|].
      destruct (c =? chr "]"); [discriminate|].
      destruct (c =? chr ","); [|now intros [= <-]].
      destruct (skip_whitespace s3 (i2 + 1)) as [s4 i4]. apply IH.
    + intros [= <-]. now apply IH in E.
  - intros rval. cbn [parse_object_loop].
    destruct s as [|q s1]; [now intros [= <-]|].
    destruct (q =? dquote); cbn [negb]; [|now intros [= <-]].
    destruct (scanstring doc s1 (idx + 1)) as [key s2 i2| | |] eqn:E;
      try discriminate.
    + destruct (skip_whitespace s2 i2) as [s3 i3].
      destruct s3 as [|c s4]; [now intros [= <-]|].
      destruct (c =? chr ":"); cbn [negb]; [|now intros [= <-]].
      destruct (skip_whitespace s4 (i3 + 1)) as [s5 i5].
      destruct (scan_once fuel depth doc s5 i5) as [val s6 i6| | |] eqn:E2;
        try discriminate.
      * destruct (skip_whitespace s6 i6) as [s7 i7].
        destruct s7 as [|c' s8]; [now intros [= <-]|].
        destruct (c' =? chr "}"); [discriminate|].
        destruct (c' =? chr ","); [|now intros [= <-]].
        destruct (skip_whitespace s8 (i7 + 1)) as [s9 i9]. apply IH.
      * intros [= <-]. now apply IH in E2.
    + intros [= <-]. now apply scanstring_loop_raises in E.
Qed.

(** [json_loads] never gives the error that stands for running out of
    fuel: the fuel of [decode] is always enough. *)
Lemma json_loads_fuel (doc : pystr) (e : exn) :
  json_loads doc = inl e -> is_out_of_fuel e = false.
Proof.
  assert (D : decode doc = inl e -> is_out_of_fuel e = false).
  { unfold decode.
    pose proof (skip_whitespace_length doc 0) as Hws.
    destruct (skip_whitespace doc 0) as [s0 i0]. cbn [fst] in Hws.
    pose proof (proj1 (scan_fuel_enough (scan_fuel doc) doc
                         recursion_budget s0 i0)) as Hf.
    destruct (scan_once (scan_fuel doc) recursion_budget doc s0 i0)
      as [obj s1 i1| | |] eqn:E.
    - destruct (skip_whitespace s1 i1) as [s2 i2].
      destruct s2; [discriminate | now intros [= <-]].
    - now intros [= <-].
    - intros [= <-]. now apply (scan_raises _ _ _ _ _ _) in E.
    - exfalso. apply Hf; [unfold scan_fuel; lia | reflexivity]. }
  unfold json_loads. destruct doc as [|c doc']; [exact D|].
  repeat break_match; try exact D; now intros [= <-].
Qed.

Lemma a2b_loop_raises (data : pybytes) :
  forall (quad_pos leftchar pads : N) (bin_data : pybytes) (e : exn),
  a2b_loop data quad_pos leftchar pads bin_data = inl e ->
  is_out_of_fuel e = false.
Proof.
  induction data as [|this_ch rest IH]; intros quad_pos leftchar pads bin_data e;
    cbn [a2b_loop].
  - repeat break_match; try discriminate; now intros [= <-].
  - repeat break_match; try discriminate; apply IH.
Qed.

(** The steps of [decode_jwt_part] never fail for lack of fuel. *)
Lemma try_decode_fuel (encoded_part : pystr) (e : exn) :
  try_decode encoded_part = inl e -> is_out_of_fuel e = false.
Proof.
  unfold try_decode, urlsafe_b64decode, bytes_from_decode_data, b64decode,
    a2b_base64.
  destruct (forallb _ (pad_base64 encoded_part)); [|now intros [= <-]].
  destruct (a2b_loop _ 0 0 0 []) as [e'|decoded_bytes] eqn:E.
  { intros [= <-]. now apply a2b_loop_raises in E. }
  unfold decode_utf8.
  destruct (utf8_decode decoded_bytes 0 []) as [[pos []]|decoded_str];
    try (now intros [= <-]).
  apply json_loads_fuel.
Qed.

(** * Further properties of the script *)

(** ** Which path [main] takes *)

Lemma split_on_length (sep : N) (s cur : pystr) :
  List.length (split_on sep s cur) = S (count_occ N.eq_dec s sep).
Proof.
  revert cur. induction s as [|c s IH]; intros cur; cbn [split_on count_occ];
    [reflexivity|].
  destruct (N.eqb_spec c sep) as [->|Hne].
  - destruct (N.eq_dec sep sep); [|congruence]. cbn [length]. now rewrite IH.
  - destruct (N.eq_dec c sep); [congruence | apply IH].
Qed.

Lemma split_length_dots (s : pystr) :
  List.length (split s (chr ".")) = S (count_dots s).
Proof. apply split_on_length. Qed.

Lemma three_parts_iff_two_dots (s : pystr) :
  (exists a b c, split s (chr ".") = [a; b; c]) <-> count_dots s = 2%nat.
Proof.
  pose proof (split_length_dots s) as L. split.
  - intros (a & b & c & E). rewrite E in L. cbn in L. lia.
  - intros E. rewrite E in L.
    destruct (split s (chr ".")) as [|a [|b [|c [|d l]]]]; try discriminate L.
    now exists a, b, c.
Qed.

(** The outcomes of a run. *)
Lemma run_cases (floatstr : pystr -> pystr) (stdin : pystr) :
  (strip stdin = []
   /\ run floatstr stdin =
        (SystemExit 1,
         {| stdout := []; stderr := empty_input_diagnostic ++ [10] |}))
  \/ (strip stdin <> [] /\ count_dots (strip stdin) <> 2%nat
      /\ run floatstr stdin =
           (SystemExit 1,
            {| stdout := [];
               stderr := str "Error: " ++ malformed_message ++ [10] |}))
  \/ (exists header payload signature,
        count_dots (strip stdin) = 2%nat
        /\ split (strip stdin) (chr ".") = [header; payload; signature]
        /\ run floatstr stdin =
             (Normal tt,
              {| stdout :=
                   report (json_dumps floatstr (decode_jwt_part header))
                          (json_dumps floatstr (decode_jwt_part payload))
                          signature;
                 stderr := [] |})).
Proof.
  destruct (strip stdin) as [|c t] eqn:E.
  { left. split; [reflexivity | now apply main_empty]. }
  right. rewrite <- E.
  destruct (Nat.eq_dec (count_dots (strip stdin)) 2) as [H2|H2].
  - right. destruct (proj2 (three_parts_iff_two_dots _) H2) as (a & b & d & S3).
    exists a, b, d. split; [exact H2|]. split; [exact S3|].
    now apply main_three_parts.
  - left. split; [congruence|]. split; [exact H2|].
    apply main_malformed; [congruence|].
    apply Z.eqb_neq. unfold len. rewrite split_length_dots. lia.
Qed.


(** The exit status is 0 exactly when the trimmed input holds two
    characters [.]. *)
Theorem exit_code_0_iff_two_dots (floatstr : pystr -> pystr) (stdin : pystr) :
  exit_code floatstr stdin = 0%Z <-> count_dots (strip stdin) = 2%nat.
Proof.
  unfold exit_code.
  destruct (run_cases floatstr stdin)
    as [(E & R) | [(_ & D & R) | (h & p & sg & D & _ & R)]];
    rewrite R; cbn [fst exit_status].
  - rewrite E. split; discriminate.
  - split; [discriminate | intros; contradiction].
  - split; [intros _; exact D | reflexivity].
Qed.

(** ** Segments between the dots *)

Lemma split_on_dot_free (sep : N) (s cur : pystr) :
  forallb (fun c => negb (c =? sep)) s = true ->
  split_on sep s cur = [rev cur ++ s].
Proof.
  revert cur. induction s as [|c s IH]; intros cur; cbn [forallb split_on].
  - intros _. now rewrite app_nil_r.
  - intros H. apply andb_true_iff in H. destruct H as [Hc Hs].
    apply negb_true_iff in Hc. rewrite Hc, (IH _ Hs). cbn [rev].
    now rewrite <- app_assoc.
Qed.

Lemma split_on_app (sep : N) (a rest cur : pystr) :
  forallb (fun c => negb (c =? sep)) a = true ->
  split_on sep (a ++ sep :: rest) cur = (rev cur ++ a) :: split_on sep rest [].
Proof.
  revert cur. induction a as [|c a IH]; intros cur; cbn [forallb app split_on].
  - intros _. rewrite N.eqb_refl. now rewrite app_nil_r.
  - intros H. apply andb_true_iff in H. destruct H as [Hc Ha].
    apply negb_true_iff in Hc. rewrite Hc, (IH _ Ha). cbn [rev].
    now rewrite <- app_assoc.
Qed.

Lemma split_three (h p sg : pystr) :
  dot_free h = true -> dot_free p = true -> dot_free sg = true ->
  split (h ++ chr "." :: p ++ chr "." :: sg) (chr ".") = [h; p; sg].
Proof.
  intros Hh Hp Hs. unfold split.
  rewrite (split_on_app _ _ _ _ Hh), (split_on_app _ _ _ _ Hp),
    (split_on_dot_free _ _ _ Hs). reflexivity.
Qed.

(** Joining the pieces of a split with the separator gives the string
    back, and no piece holds the separator. *)
Lemma split_on_join (sep : N) (s cur : pystr) :
  forallb (fun c => negb (c =? sep)) cur = true ->
  join [sep] (split_on sep s cur) = rev cur ++ s
  /\ Forall (fun piece => forallb (fun c => negb (c =? sep)) piece = true)
            (split_on sep s cur).
Proof.
  revert cur. induction s as [|c s IH]; intros cur Hcur; cbn [split_on].
  - cbn [join]. split; [now rewrite app_nil_r|].
    constructor; [|constructor]. now rewrite forallb_reversed.
  - destruct (N.eqb_spec c sep) as [->|Hne].
    + destruct (IH [] eq_refl) as [J F]. split.
      * pose proof (split_on_nonempty sep s []) as Hn.
        destruct (split_on sep s []) as [|x l] eqn:E; [congruence|].
        cbn [join]. cbn [join] in J.
        destruct l; cbn [rev app] in J |- *; rewrite <- ?J;
          now rewrite <- ?app_assoc.
      * constructor; [now rewrite forallb_reversed | exact F].
    + assert (Hc : forallb (fun c0 => negb (c0 =? sep)) (c :: cur) = true).
      { cbn [forallb]. rewrite Hcur, andb_true_r. apply negb_true_iff.
        now apply N.eqb_neq. }
      destruct (IH (c :: cur) Hc) as [J F]. split; [|exact F].
      rewrite J. cbn [rev]. now rewrite <- app_assoc.
Qed.

Lemma split_three_inv (s h p sg : pystr) :
  split s (chr ".") = [h; p; sg] ->
  s = h ++ chr "." :: p ++ chr "." :: sg
  /\ dot_free h = true /\ dot_free p = true /\ dot_free sg = true.
Proof.
  intros E. destruct (split_on_join (chr ".") s [] eq_refl) as [J F].
  unfold split in E. rewrite E in J, F. cbn [join rev app] in J.
  split; [symmetry; exact J|].
  inversion F as [|? ? F1 F']; subst. inversion F' as [|? ? F2 F'']; subst.
  inversion F'' as [|? ? F3 _]; subst. auto.
Qed.

(** When the trimmed input is [header.payload.signature] with no dot
    inside the three parts, the report shows the outcome of decoding
    [header], the outcome of decoding [payload], and [signature] itself:
    the signature line carries all that follows the second dot. *)
Theorem report_of_dotted_token
  (floatstr : pystr -> pystr) (stdin header payload signature : pystr) :
  strip stdin = header ++ chr "." :: payload ++ chr "." :: signature ->
  dot_free header = true -> dot_free payload = true ->
  dot_free signature = true ->
  run floatstr stdin =
    (Normal tt,
     {| stdout := report (render_decoded floatstr (try_decode header))
                         (render_decoded floatstr (try_decode payload))
                         signature;
        stderr := [] |}).
Proof.
  intros E Hh Hp Hs. rewrite <- !rendered_segment.
  apply main_three_parts. rewrite E. now apply split_three.
Qed.

Lemma report_of_dotted_token_witness :
  run floatstr_literal (str " e30.e30.x y" ++ [10]) =
    (Normal tt,
     {| stdout := report (str "{}") (str "{}") (str "x y"); stderr := [] |}).
Proof.
  apply (report_of_dotted_token floatstr_literal (str " e30.e30.x y" ++ [10])
           (str "e30") (str "e30") (str "x y")); reflexivity.
Defined.

(** Conversely, a run with exit status 0 had a trimmed input of that
    form, and its report is the one of those three parts. *)
Theorem normal_return_gives_dotted_token
  (floatstr : pystr -> pystr) (stdin : pystr) :
  exit_code floatstr stdin = 0%Z ->
  exists header payload signature,
    strip stdin = header ++ chr "." :: payload ++ chr "." :: signature
    /\ dot_free header = true /\ dot_free payload = true
    /\ dot_free signature = true
    /\ output floatstr stdin =
         report (render_decoded floatstr (try_decode header))
                (render_decoded floatstr (try_decode payload))
                signature.
Proof.
  unfold exit_code, output.
  destruct (run_cases floatstr stdin)
    as [(_ & R) | [(_ & _ & R) | (h & p & sg & _ & S3 & R)]];
    rewrite R; cbn [fst snd exit_status stdout]; try discriminate.
  intros _. exists h, p, sg.
  destruct (split_three_inv _ _ _ _ S3) as (E & Hh & Hp & Hs).
  rewrite !rendered_segment. auto.
Qed.

(** ** Surrounding whitespace *)

Lemma lstrip_app_space (a s : pystr) :
  forallb isspace a = true -> lstrip (a ++ s) = lstrip s.
Proof.
  induction a as [|c a IH]; cbn [forallb app lstrip]; [reflexivity|].
  intros H. apply andb_true_iff in H. destruct H as [Hc Ha].
  rewrite Hc. now apply IH.
Qed.

Lemma rstrip_app_space (s b : pystr) :
  forallb isspace b = true -> rstrip (s ++ b) = rstrip s.
Proof.
  intros H. unfold rstrip. rewrite rev_app_distr, lstrip_app_space;
    [reflexivity | now rewrite forallb_reversed].
Qed.

Lemma lstrip_app (s b : pystr) :
  lstrip (s ++ b) = if forallb isspace s then lstrip b else lstrip s ++ b.
Proof.
  induction s as [|c s IH]; cbn [forallb app lstrip]; [reflexivity|].
  destruct (isspace c); cbn [andb]; [exact IH | reflexivity].
Qed.

Lemma strip_surrounded (a s b : pystr) :
  forallb isspace a = true -> forallb isspace b = true ->
  strip (a ++ s ++ b) = strip s.
Proof.
  intros Ha Hb. unfold strip. rewrite lstrip_app_space by exact Ha.
  rewrite lstrip_app. destruct (forallb isspace s) eqn:Hs.
  - apply lstrip_all_space in Hs, Hb. now rewrite Hs, Hb.
  - now apply rstrip_app_space.
Qed.

Lemma run_depends_on_strip (floatstr : pystr -> pystr) (x y : pystr) :
  strip x = strip y -> run floatstr x = run floatstr y.
Proof. intros H. unfold run, main. now rewrite H. Qed.

(** Whitespace before and after the input (a final line feed, say) does
    not change the run. *)
Theorem main_ignores_surrounding_whitespace
  (floatstr : pystr -> pystr) (before stdin after : pystr) :
  forallb isspace before = true -> forallb isspace after = true ->
  run floatstr (before ++ stdin ++ after) = run floatstr stdin.
Proof.
  intros Ha Hb. apply run_depends_on_strip. now apply strip_surrounded.
Qed.

Lemma main_ignores_surrounding_whitespace_witness :
  run floatstr_literal ([32; 9] ++ str "e30.e30.sig" ++ [13; 10])
  = run floatstr_literal (str "e30.e30.sig").
Proof.
  apply (main_ignores_surrounding_whitespace floatstr_literal
           [32; 9] (str "e30.e30.sig") [13; 10]); reflexivity.
Defined.

Lemma normal_return_gives_dotted_token_witness :
  exists header payload signature,
    strip (str "a.b.c" ++ [10])
    = header ++ chr "." :: payload ++ chr "." :: signature
    /\ dot_free signature = true.
Proof.
  destruct (normal_return_gives_dotted_token floatstr_literal
              (str "a.b.c" ++ [10]))
    as (h & p & sg & E & _ & _ & Hs & _); [reflexivity|].
  now exists h, p, sg.
Defined.

(** ** Segments of base64url characters *)

Lemma b64url_char_sextet (c : N) :
  is_b64url_char c = true ->
  (c <? 128) = true /\ exists v, table_a2b_base64 (tr c) = Some v.
Proof.
  unfold is_b64url_char. intros H. apply andb_true_iff in H.
  destruct H as [Ha Ht]. split; [exact Ha|].
  destruct (table_a2b_base64 (tr c)) as [v|]; [now exists v | discriminate].
Qed.

(** One step of the decoder on a character that has a sextet. *)
Lemma a2b_loop_char (c v : N) (rest : pybytes) (q lc pads : N) (out : pybytes) :
  table_a2b_base64 c = Some v ->
  a2b_loop (c :: rest) q lc pads out =
    if q =? 0 then a2b_loop rest 1 v 0 out
    else if q =? 1 then
      a2b_loop rest 2 (N.land v 15) 0
        (out ++ [uchar (N.lor (N.shiftl lc 2) (N.shiftr v 4))])
    else if q =? 2 then
      a2b_loop rest 3 (N.land v 3) 0
        (out ++ [uchar (N.lor (N.shiftl lc 4) (N.shiftr v 2))])
    else a2b_loop rest 0 0 0 (out ++ [uchar (N.lor (N.shiftl lc 6) v)]).
Proof.
  intros Hv. cbn [a2b_loop].
  destruct (N.eqb_spec c BASE64_PAD) as [->|_]; [discriminate Hv|].
  now rewrite Hv.
Qed.

(** Induction on a list four elements at a time. *)
Lemma list_ind4 {A} (P : list A -> Prop) :
  P [] -> (forall a, P [a]) -> (forall a b, P [a; b]) ->
  (forall a b c, P [a; b; c]) ->
  (forall a b c d l, P l -> P (a :: b :: c :: d :: l)) ->
  forall l, P l.
Proof.
  intros H0 H1 H2 H3 H4. fix IH 1.
  intros [|a [|b [|c [|d l]]]];
    [exact H0 | apply H1 | apply H2 | apply H3 | apply H4, IH].
Qed.

(** The state of the decoder after a run of characters that all have a
    sextet: the position in the group is the length modulo 4 and three
    bytes were written for every four characters. *)
Lemma a2b_loop_chars (cs : pybytes) :
  forallb (fun c => match table_a2b_base64 c with
                    | Some _ => true | None => false end) cs = true ->
  forall (rest out : pybytes),
  exists (lc : N) (out' : pybytes),
    a2b_loop (cs ++ rest) 0 0 0 out
    = a2b_loop rest (N.of_nat (List.length cs mod 4)) lc 0 out'
    /\ List.length out' = (List.length out + 3 * List.length cs / 4)%nat
    /\ ((List.length cs mod 4)%nat = 0%nat -> lc = 0).
Proof.
  induction cs as [|a|a b|a b c|a b c d l IH] using list_ind4;
    cbn [forallb]; intros H rest out.
  - exists 0, out. cbn. repeat split. lia.
  - destruct (table_a2b_base64 a) as [va|] eqn:Ea; [|discriminate].
    cbn [app]. rewrite (a2b_loop_char a va) by exact Ea. cbn [N.eqb].
    eexists _, out. cbn. repeat split; [lia | discriminate].
  - destruct (table_a2b_base64 a) as [va|] eqn:Ea; [|discriminate].
    destruct (table_a2b_base64 b) as [vb|] eqn:Eb; [|discriminate].
    cbn [app]. rewrite (a2b_loop_char a va) by exact Ea. cbn [N.eqb].
    rewrite (a2b_loop_char b vb) by exact Eb. cbn [N.eqb Pos.eqb].
    eexists _, _. split; [reflexivity|]. rewrite length_app. cbn.
    split; [lia | discriminate].
  - destruct (table_a2b_base64 a) as [va|] eqn:Ea; [|discriminate].
    destruct (table_a2b_base64 b) as [vb|] eqn:Eb; [|discriminate].
    destruct (table_a2b_base64 c) as [vc|] eqn:Ec; [|discriminate].
    cbn [app]. rewrite (a2b_loop_char a va) by exact Ea. cbn [N.eqb].
    rewrite (a2b_loop_char b vb) by exact Eb. cbn [N.eqb Pos.eqb].
    rewrite (a2b_loop_char c vc) by exact Ec. cbn [N.eqb Pos.eqb].
    eexists _, _. split; [reflexivity|]. rewrite !length_app. cbn.
    split; [lia | discriminate].
  - destruct (table_a2b_base64 a) as [va|] eqn:Ea; [|discriminate].
    destruct (table_a2b_base64 b) as [vb|] eqn:Eb; [|discriminate].
    destruct (table_a2b_base64 c) as [vc|] eqn:Ec; [|discriminate].
    destruct (table_a2b_base64 d) as [vd|] eqn:Ed; [|discriminate].
    cbn [andb] in H. cbn [app].
    rewrite (a2b_loop_char a va) by exact Ea. cbn [N.eqb].
    rewrite (a2b_loop_char b vb) by exact Eb. cbn [N.eqb Pos.eqb].
    rewrite (a2b_loop_char c vc) by exact Ec. cbn [N.eqb Pos.eqb].
    rewrite (a2b_loop_char d vd) by exact Ed. cbn [N.eqb Pos.eqb].
    destruct (IH H rest
                (((out ++ [uchar (N.lor (N.shiftl va 2) (N.shiftr vb 4))])
                  ++ [uchar (N.lor (N.shiftl (N.land vb 15) 4) (N.shiftr vc 2))])
                 ++ [uchar (N.lor (N.shiftl (N.land vc 3) 6) vd)]))
      as (lc & out' & E & L & Z0).
    exists lc, out'. rewrite E.
    assert (M : (List.length (a :: b :: c :: d :: l) mod 4
                 = List.length l mod 4)%nat).
    { cbn [length].
      replace (S (S (S (S (List.length l))))) with (List.length l + 1 * 4)%nat
        by lia.
      apply Nat.Div0.mod_add. }
    assert (D : (3 * List.length (a :: b :: c :: d :: l) / 4
                 = 3 * List.length l / 4 + 3)%nat).
    { cbn [length].
      replace (3 * S (S (S (S (List.length l)))))%nat
        with (3 * List.length l + 3 * 4)%nat by lia.
      apply Nat.div_add. lia. }
    rewrite M, D.
    split; [reflexivity|]. split; [|exact Z0].
    rewrite L, !length_app. cbn [length]. lia.
Qed.

Lemma a2b_loop_pads_at_1 (k : nat) (lc : N) (out : pybytes) :
  a2b_loop (repeat BASE64_PAD k) 1 lc 0 out =
    inl (BinasciiError (invalid_length_message (len out / 3 * 4 + 1))).
Proof. induction k as [|k IH]; [reflexivity | exact IH]. Qed.

Lemma len_mod_4 {A} (s : list A) :
  (len s mod 4)%Z = Z.of_nat (List.length s mod 4).
Proof.
  unfold len. change 4%Z with (Z.of_nat 4). now rewrite <- Nat2Z.inj_mod.
Qed.

Lemma pad_count_of_length (s : pystr) :
  pad_count s = (4 - List.length s mod 4)%nat.
Proof.
  unfold pad_count. rewrite len_mod_4.
  pose proof (Nat.mod_upper_bound (List.length s) 4 ltac:(lia)). lia.
Qed.

Lemma sextets_of_b64url_chars (s : pystr) :
  forallb is_b64url_char s = true ->
  forallb (fun c => c <? 128) s = true
  /\ forallb (fun c => match table_a2b_base64 c with
                       | Some _ => true | None => false end) (map tr s) = true.
Proof.
  induction s as [|c s IH]; cbn [forallb map]; [auto|].
  intros H. apply andb_true_iff in H. destruct H as [Hc Hs].
  destruct (IH Hs) as [IH1 IH2]. rewrite IH1, IH2.
  unfold is_b64url_char in Hc. apply andb_true_iff in Hc.
  destruct Hc as [Ha Ht]. rewrite Ha, Ht. auto.
Qed.

(** What [urlsafe_b64decode] makes of the padded form of a segment of
    base64url characters. *)
Lemma urlsafe_b64decode_pad_chars (s : pystr) :
  forallb is_b64url_char s = true ->
  exists (lc : N) (decoded : pybytes),
    List.length decoded = (3 * List.length s / 4)%nat
    /\ urlsafe_b64decode (pad_base64 s) =
         a2b_loop (repeat BASE64_PAD (pad_count s))
                  (N.of_nat (List.length s mod 4)) lc 0 decoded
    /\ ((List.length s mod 4)%nat = 0%nat -> lc = 0).
Proof.
  intros H. destruct (sextets_of_b64url_chars s H) as [Ha Ht].
  unfold urlsafe_b64decode, bytes_from_decode_data.
  rewrite pad_base64_repeat, forallb_app, Ha, forallb_repeat by reflexivity.
  cbn [andb]. unfold b64decode, a2b_base64. rewrite map_app, map_repeat.
  change (tr (chr "=")) with BASE64_PAD.
  destruct (a2b_loop_chars (map tr s) Ht (repeat BASE64_PAD (pad_count s)) [])
    as (lc & out' & E & L & Z0).
  rewrite length_map in E, L, Z0. exists lc, out'. cbn [length] in L. auto.
Qed.

(** A segment made of base64url characters only, whose length is not one
    more than a multiple of 4, always passes the base64 step once
    [pad_base64] has padded it, and gives three bytes for every four
    characters (rounded down). *)
Theorem padded_segment_is_decodable (s : pystr) :
  forallb is_b64url_char s = true ->
  (len s mod 4 <> 1)%Z ->
  exists decoded : pybytes,
    urlsafe_b64decode (pad_base64 s) = inr decoded
    /\ len decoded = (3 * len s / 4)%Z.
Proof.
  intros H Hlen.
  destruct (urlsafe_b64decode_pad_chars s H) as (lc & decoded & L & E & Z0).
  exists decoded. rewrite E, pad_count_of_length.
  assert (Hd : len decoded = (3 * len s / 4)%Z).
  { unfold len. rewrite L, Nat2Z.inj_div, Nat2Z.inj_mul. reflexivity. }
  split; [|exact Hd].
  assert (Hn : (List.length s mod 4)%nat <> 1%nat).
  { intros C. apply Hlen. now rewrite len_mod_4, C. }
  pose proof (Nat.mod_upper_bound (List.length s) 4 ltac:(lia)) as Hb.
  destruct (List.length s mod 4)%nat as [|[|[|[|m]]]] eqn:Em; try lia.
  - rewrite (Z0 eq_refl). apply a2b_loop_pads_at_0.
  - reflexivity.
  - reflexivity.
Qed.

Lemma padded_segment_is_decodable_witness :
  exists decoded : pybytes,
    urlsafe_b64decode (pad_base64 (str "eyJ-_+/9")) = inr decoded
    /\ len decoded = 6%Z.
Proof.
  apply (padded_segment_is_decodable (str "eyJ-_+/9")); [reflexivity|].
  vm_compute. discriminate.
Defined.

(** A segment made of base64url characters only, whose length is one more
    than a multiple of 4, is never decoded: [decode_jwt_part] returns the
    error string of [binascii.Error] that names that length. *)
Theorem decode_jwt_part_invalid_length (s : pystr) :
  forallb is_b64url_char s = true ->
  (len s mod 4 = 1)%Z ->
  decode_jwt_part s =
    PyStr (str "Error decoding: " ++ invalid_length_message (len s)).
Proof.
  intros H Hlen.
  destruct (urlsafe_b64decode_pad_chars s H) as (lc & decoded & L & E & _).
  unfold decode_jwt_part, try_decode. rewrite E.
  assert (Hn : (List.length s mod 4)%nat = 1%nat).
  { apply Nat2Z.inj. now rewrite <- len_mod_4. }
  rewrite Hn. change (N.of_nat 1) with 1.
  rewrite a2b_loop_pads_at_1. cbn [exn_str]. do 3 f_equal.
  unfold len. rewrite L.
  pose proof (Nat.div_mod_eq (List.length s) 4) as Hdm. rewrite Hn in Hdm.
  set (k := (List.length s / 4)%nat) in *.
  replace (3 * List.length s / 4)%nat with (3 * k)%nat.
  - rewrite Hdm. lia.
  - rewrite Hdm.
    replace (3 * (4 * k + 1))%nat with (3 + (3 * k) * 4)%nat by lia.
    rewrite Nat.div_add by lia. reflexivity.
Qed.

Lemma decode_jwt_part_invalid_length_witness :
  decode_jwt_part (str "eyJhb") =
    PyStr (str "Error decoding: Invalid base64-encoded string: number of data characters (5) cannot be 1 more than a multiple of 4").
Proof.
  apply (decode_jwt_part_invalid_length (str "eyJhb")); reflexivity.
Defined.

(** ** Segments with other characters *)

(** A segment that holds a character outside ASCII is never decoded:
    [decode_jwt_part] returns the error string of the [ValueError] of
    [urlsafe_b64decode]. *)
Theorem decode_jwt_part_non_ascii (s : pystr) :
  existsb (fun c => 128 <=? c) s = true ->
  decode_jwt_part s =
    PyStr (str "Error decoding: string argument should contain only ASCII characters").
Proof.
  intros H. unfold decode_jwt_part, try_decode, urlsafe_b64decode,
    bytes_from_decode_data.
  assert (F : forallb (fun c => c <? 128) (pad_base64 s) = false).
  { rewrite pad_base64_repeat, forallb_app.
    apply andb_false_intro1. apply not_true_is_false. intros A.
    apply existsb_exists in H. destruct H as (c & Hin & Hc).
    rewrite forallb_forall in A. specialize (A c Hin).
    apply N.leb_le in Hc. apply N.ltb_lt in A. lia. }
  rewrite F. reflexivity.
Qed.

Lemma decode_jwt_part_non_ascii_witness :
  decode_jwt_part (str "eyJ" ++ [233] ++ str "x") =
    PyStr (str "Error decoding: string argument should contain only ASCII characters").
Proof.
  apply (decode_jwt_part_non_ascii (str "eyJ" ++ [233] ++ str "x")).
  reflexivity.
Defined.

Lemma tr_idempotent (c : N) : tr (tr c) = tr c.
Proof.
  unfold urlsafe_decode_translation.
  destruct (N.eqb_spec c (chr "-")) as [->|H1]; [reflexivity|].
  destruct (N.eqb_spec c (chr "_")) as [->|H2]; [reflexivity|].
  destruct (N.eqb_spec c (chr "-")); [contradiction|].
  destruct (N.eqb_spec c (chr "_")); [contradiction | reflexivity].
Qed.

Lemma tr_ascii (c : N) : (tr c <? 128) = (c <? 128).
Proof.
  unfold urlsafe_decode_translation.
  destruct (N.eqb_spec c (chr "-")) as [->|H1]; [reflexivity|].
  destruct (N.eqb_spec c (chr "_")) as [->|H2]; reflexivity.
Qed.

Lemma forallb_map_tr (l : pystr) :
  forallb (fun c => c <? 128) (map tr l) = forallb (fun c => c <? 128) l.
Proof.
  induction l as [|c l IH]; [reflexivity|].
  cbn [map forallb]. rewrite tr_ascii. now f_equal.
Qed.

(** [decode_jwt_part] reads the standard base64 alphabet as well: writing
    [+] for [-] and [/] for [_] in a segment does not change its result. *)
Theorem decode_jwt_part_standard_alphabet (s : pystr) :
  decode_jwt_part (map urlsafe_decode_translation s) = decode_jwt_part s.
Proof.
  unfold decode_jwt_part, try_decode.
  assert (P : pad_base64 (map tr s) = map tr (pad_base64 s)).
  { unfold pad_base64, len. rewrite map_app, length_map. f_equal.
    change (str "=") with [chr "="]. rewrite str_mul_char.
    now rewrite map_repeat. }
  rewrite P. unfold urlsafe_b64decode, bytes_from_decode_data.
  rewrite forallb_map_tr. destruct (forallb _ (pad_base64 s)); [|reflexivity].
  rewrite map_map.
  rewrite (map_ext (fun c => tr (tr c)) tr tr_idempotent). reflexivity.
Qed.

(** A segment of pad characters only, the empty segment among them,
    decodes to no bytes at all, and [decode_jwt_part] returns the error
    string of [json.loads] on the empty document. *)
Theorem decode_jwt_part_only_pads (k : nat) :
  decode_jwt_part (repeat (chr "=") k) = PyStr empty_segment_error.
Proof.
  unfold decode_jwt_part, try_decode, urlsafe_b64decode,
    bytes_from_decode_data.
  rewrite pad_base64_repeat, <- repeat_app.
  rewrite forallb_repeat by reflexivity.
  unfold b64decode, a2b_base64. rewrite map_repeat.
  change (tr (chr "=")) with BASE64_PAD.
  rewrite a2b_loop_pads_at_0. reflexivity.
Qed.

(** ** Round trips *)

(** Whatever bytes were encoded in base64url, with or without pad
    characters at the end, [pad_base64] followed by [urlsafe_b64decode]
    gives them back: the characters [=] that [pad_base64] adds beyond need
    do no harm. *)
Theorem pad_then_decode_gives_bytes_back (b : pybytes) (pads : nat) :
  forallb is_byte b = true ->
  urlsafe_b64decode (pad_base64 (b64url_encode b ++ repeat (chr "=") pads))
  = inr b.
Proof. intros H. now apply urlsafe_b64decode_pad_encode. Qed.

Lemma pad_then_decode_gives_bytes_back_witness :
  urlsafe_b64decode (pad_base64 (b64url_encode [0; 255; 16; 131] ++ []))
  = inr [0; 255; 16; 131].
Proof.
  apply (pad_then_decode_gives_bytes_back [0; 255; 16; 131] 0). reflexivity.
Defined.

(** On the base64url encoding of the UTF-8 encoding of a text,
    [decode_jwt_part] returns what [json.loads] makes of that text: its
    value, or the error string of its exception. *)
Theorem decode_jwt_part_of_encoded_text (text : pystr) (pads : nat) :
  forallb is_scalar_value text = true ->
  decode_jwt_part (encode_segment text ++ repeat (chr "=") pads) =
    match json_loads text with
    | inr value => value
    | inl e => PyStr (str "Error decoding: " ++ exn_str e)
    end.
Proof.
  intros H. unfold decode_jwt_part. now rewrite try_decode_encoded.
Qed.

Lemma decode_jwt_part_of_encoded_text_witness :
  decode_jwt_part (encode_segment (str "[1, tru]") ++ repeat (chr "=") 2) =
    PyStr (str "Error decoding: Expecting value: line 1 column 5 (char 4)").
Proof.
  rewrite (decode_jwt_part_of_encoded_text (str "[1, tru]") 2) by reflexivity.
  vm_compute. reflexivity.
Defined.

(** ** The characters of a section *)

Lemma hex_digit_printable (d : N) : d < 16 -> printable (hex_digit d) = true.
Proof.
  intros H. unfold printable, hex_digit.
  change (chr "0") with 48. change (chr "a") with 97.
  change (chr " ") with 32. change (chr "~") with 126.
  destruct (N.ltb_spec d 10); apply andb_true_iff; split; apply N.leb_le; lia.
Qed.

Lemma land_15_bound (n : N) : N.land n 15 < 16.
Proof.
  change 15 with (N.ones 4). rewrite N.land_ones.
  apply N.mod_upper_bound. discriminate.
Qed.

Lemma hex_fixed_printable (width : nat) (n : N) :
  forallb printable (hex_fixed width n) = true.
Proof.
  revert n. induction width as [|w IH]; intros n; [reflexivity|].
  cbn [hex_fixed]. rewrite forallb_app, IH. cbn [forallb].
  now rewrite hex_digit_printable by apply land_15_bound.
Qed.

Lemma escape_ascii_printable (c : N) :
  forallb printable (escape_ascii c) = true.
Proof.
  unfold escape_ascii.
  repeat match goal with
  | |- context [if ?b then _ else _] =>
      destruct b eqn:?; [try reflexivity|]
  end.
  - cbn [forallb]. now rewrite andb_true_r.
  - cbn [app forallb str list_ascii_of_string map].
    unfold hex_04x. now rewrite hex_fixed_printable.
  - unfold hex_04x. rewrite !forallb_app, !hex_fixed_printable. reflexivity.
Qed.

Lemma flat_map_escape_printable (s : pystr) :
  forallb printable (flat_map escape_ascii s) = true.
Proof.
  induction s as [|c s IH]; [reflexivity|].
  cbn [flat_map]. now rewrite forallb_app, escape_ascii_printable, IH.
Qed.

Lemma encode_basestring_ascii_printable (s : pystr) :
  forallb printable (encode_basestring_ascii s) = true.
Proof.
  unfold encode_basestring_ascii.
  now rewrite !forallb_app, flat_map_escape_printable.
Qed.

(** The section of a segment that failed to decode is one line of
    printable ASCII: whatever the cause holds (line feeds, quotes, other
    scripts) is escaped. *)
Theorem inline_error_is_one_printable_line
  (floatstr : pystr -> pystr) (encoded_part : pystr) (e : exn) :
  try_decode encoded_part = inl e ->
  forallb printable (json_dumps floatstr (decode_jwt_part encoded_part)) = true
  /\ ~ In 10 (json_dumps floatstr (decode_jwt_part encoded_part)).
Proof.
  intros H. unfold decode_jwt_part. rewrite H. cbn [json_dumps].
  pose proof (encode_basestring_ascii_printable
                (str "Error decoding: " ++ exn_str e)) as P.
  split; [exact P|]. intros I.
  rewrite forallb_forall in P. specialize (P 10 I). discriminate P.
Qed.

Lemma inline_error_is_one_printable_line_witness :
  forallb printable
    (json_dumps floatstr_literal (decode_jwt_part (str "_w"))) = true.
Proof.
  apply (inline_error_is_one_printable_line floatstr_literal (str "_w")
           (UnicodeDecodeError (str "utf-8") [255] 0 1
              (str "invalid start byte"))).
  reflexivity.
Defined.

(** Induction on a value, with the property for every item of a list and
    every value of a dict. *)
Lemma pyobj_nested_ind (P : pyobj -> Prop) :
  P PyNone -> (forall b, P (PyBool b)) -> (forall z, P (PyInt z)) ->
  (forall lit, P (PyFloat lit)) -> (forall s, P (PyStr s)) ->
  (forall l, Forall P l -> P (PyList l)) ->
  (forall d, Forall (fun kv => P (snd kv)) d -> P (PyDict d)) ->
  forall o, P o.
Proof.
  intros HN HB HI HF HS HL HD. fix IH 1. intros [| b | z | lit | s | l | d].
  - exact HN.
  - apply HB.
  - apply HI.
  - apply HF.
  - apply HS.
  - apply HL. induction l as [|x l IHl]; constructor; [apply IH | exact IHl].
  - apply HD. induction d as [|[k v] d IHd]; constructor;
      [apply IH | exact IHd].
Qed.

Lemma printable_weaken (s : pystr) :
  forallb printable s = true -> forallb printable_or_newline s = true.
Proof.
  rewrite !forallb_forall. intros H c Hc. unfold printable_or_newline.
  now rewrite (H c Hc).
Qed.

Lemma uint_printable (u : Decimal.uint) :
  forallb printable (str (NilEmpty.string_of_uint u)) = true.
Proof. induction u; cbn; try reflexivity; exact IHu. Qed.

Lemma repr_int_printable (z : Z) : forallb printable (repr_int z) = true.
Proof.
  unfold repr_int, repr_N. destruct z as [|p|p].
  - apply uint_printable.
  - apply uint_printable.
  - cbn [forallb]. now rewrite uint_printable.
Qed.

Lemma newline_indent_ok (level : nat) :
  forallb printable_or_newline (newline_indent level) = true.
Proof.
  rewrite newline_indent_spaces. cbn [forallb].
  now rewrite forallb_repeat.
Qed.

Section AsciiSections.

Variable floatstr : pystr -> pystr.
Hypothesis floatstr_printable :
  forall lit, forallb printable (floatstr lit) = true.

Lemma iterencode_ascii (o : pyobj) :
  forall level,
  forallb printable_or_newline (iterencode floatstr o level) = true.
Proof.
  induction o as [| b | z | lit | s | l IHl | d IHd] using pyobj_nested_ind;
    intros level.
  - reflexivity.
  - destruct b; reflexivity.
  - apply printable_weaken, repr_int_printable.
  - apply printable_weaken, floatstr_printable.
  - apply printable_weaken, encode_basestring_ascii_printable.
  - destruct l as [|value lst]; [reflexivity|].
    assert (J : forall items : list pyobj, Forall
              (fun o => forall level,
                 forallb printable_or_newline (iterencode floatstr o level)
                 = true) items ->
            forallb printable_or_newline
              (join (str "," ++ newline_indent (S level))
                 (map (fun v => iterencode floatstr v (S level)) items))
            = true).
    { induction 1 as [|x items Hx Hitems IH]; [reflexivity|].
      destruct items as [|y items']; [apply Hx|].
      cbn [map join] in IH |- *.
      rewrite !forallb_app, Hx, newline_indent_ok, IH. reflexivity. }
    rewrite iterencode_list, !forallb_app, !newline_indent_ok, (J _ IHl).
    reflexivity.
  - destruct d as [|item dct]; [reflexivity|].
    assert (J : forall items : list (pystr * pyobj), Forall
              (fun kv => forall level,
                 forallb printable_or_newline
                   (iterencode floatstr (snd kv) level) = true) items ->
            forallb printable_or_newline
              (join (str "," ++ newline_indent (S level))
                 (map (fun kv => encode_basestring_ascii (fst kv) ++ str ": "
                                 ++ iterencode floatstr (snd kv) (S level))
                      items))
            = true).
    { induction 1 as [|x items Hx Hitems IH]; [reflexivity|].
      assert (X : forallb printable_or_newline
                    (encode_basestring_ascii (fst x) ++ str ": "
                     ++ iterencode floatstr (snd x) (S level)) = true).
      { rewrite !forallb_app, Hx.
        rewrite (printable_weaken _ (encode_basestring_ascii_printable _)).
        reflexivity. }
      destruct items as [|y items']; [exact X|].
      cbn [map join] in IH |- *.
      rewrite forallb_app, X, forallb_app, forallb_app, newline_indent_ok, IH.
      reflexivity. }
    rewrite iterencode_dict, !forallb_app, !newline_indent_ok, (J _ IHd).
    reflexivity.
Qed.

Lemma json_dumps_ascii (o : pyobj) :
  forallb printable_or_newline (json_dumps floatstr o) = true.
Proof.
  destruct o; try apply (iterencode_ascii _ 0).
  apply printable_weaken, encode_basestring_ascii_printable.
Qed.

End AsciiSections.

(** With a float printer that writes printable ASCII, the section of any
    segment holds printable ASCII and line feeds only: text outside ASCII
    in a token is shown escaped. *)
Theorem sections_are_ascii
  (floatstr : pystr -> pystr) (encoded_part : pystr) :
  (forall lit, forallb printable (floatstr lit) = true) ->
  forallb printable_or_newline
    (json_dumps floatstr (decode_jwt_part encoded_part)) = true.
Proof. intros H. now apply json_dumps_ascii. Qed.

Lemma sections_are_ascii_witness :
  forallb printable_or_newline
    (json_dumps floatstr_zero
       (decode_jwt_part (encode_segment [123; 34; 233; 34; 58; 49; 46; 53; 125])))
  = true.
Proof.
  apply (sections_are_ascii floatstr_zero). intros lit. reflexivity.
Defined.
